(** * brunch, lib/utils/helpers.js: the compilation log line

    A shallow embedding of [generateCompilationLog] and of the JavaScript
    builtins it calls, followed by the properties of the log line that
    the specification of the module states; then the other synchronous
    helpers of the file ([flatten], [deepAssign], [prettify],
    [getFormattedError], [getCompilationProgress], [deepFreeze]) with
    properties read off their code. *)

From Stdlib Require Import ZArith String Ascii List Bool Lia Permutation.
From Stdlib Require Import Decimal DecimalString DecimalPos.
Import ListNotations.

Open Scope list_scope.
Open Scope string_scope.
Open Scope Z_scope.

(** ** The JavaScript builtins used by the function

    Numbers that the function handles are integral: lengths, counters and
    millisecond timestamps.  They are modelled as [Z].  The one place where
    a fraction appears is [diff / oneSecond], whose binary64 result is kept
    exactly, as a mantissa and a binary exponent. *)

Module JS.

(** [ToString] applied to an integral Number below 10^21 in magnitude:
    the decimal digits, with a minus sign for a negative value. *)
Definition Number_toString (z : Z) : string :=
  NilEmpty.string_of_int (Z.to_int z).

(** [Array.prototype.toString] on an array of strings is [join(",")]. *)
Definition Array_toString (a : list string) : string :=
  String.concat "," a.

(** [Array.prototype.includes] on an array of strings: strings are
    compared by value. *)
Definition includes (a : list string) (s : string) : bool :=
  existsb (String.eqb s) a.

(** The [length] property of an array, as a Number. *)
Definition Array_length {A : Type} (a : list A) : Z :=
  Z.of_nat (List.length a).

(** Truthiness of a string: the empty string is the only falsy one. *)
Definition truthy (s : string) : bool :=
  match s with
  | EmptyString => false
  | String _ _ => true
  end.

(** [a || b] on strings. *)
Definition or_else (a b : string) : string :=
  if truthy a then a else b.

(** A finite binary64 value, [mant * 2 ^ expo]. *)
Record F64 : Type := mkF64 { mant : Z; expo : Z }.

(** Nearest integer to [p / q] for [0 <= p] and [0 < q], a tie going to
    the even neighbour (the rounding mode of binary64 arithmetic). *)
Definition round_half_even (p q : Z) : Z :=
  let d := p / q in
  let r := p mod q in
  if 2 * r <? q then d
  else if q <? 2 * r then d + 1
  else if Z.even d then d else d + 1.

(** The binary64 value nearest to [p / q], for [0 < p] and [0 < q] with a
    quotient in the normal range: a 53-bit mantissa, ties to even. *)
Definition nearest_F64 (p q : Z) : F64 :=
  let e0 := Z.log2 p - Z.log2 q in
  let lg := if p * 2 ^ Z.max 0 (- e0) <? q * 2 ^ Z.max 0 e0
            then e0 - 1 else e0 in
  let s := lg - 52 in
  let m := round_half_even (p * 2 ^ Z.max 0 (- s)) (q * 2 ^ Z.max 0 s) in
  mkF64 m s.

(** [a / b] on integral Numbers, [b] not zero. *)
Definition Number_div (a b : Z) : F64 :=
  if a =? 0 then mkF64 0 0
  else
    let x := nearest_F64 (Z.abs a) (Z.abs b) in
    mkF64 (Z.sgn a * Z.sgn b * mant x) (expo x).

(** [a - b] on integral Numbers.  The exact difference is rounded to
    binary64; the result is again integral (and equal to the exact
    difference up to 2^53 in magnitude). *)
Definition Number_sub (a b : Z) : Z :=
  let d := a - b in
  if d =? 0 then 0
  else
    let x := nearest_F64 (Z.abs d) 1 in
    Z.sgn d * (mant x * 2 ^ Z.max 0 (expo x) / 2 ^ Z.max 0 (- expo x)).

(** [Number.prototype.toFixed(1)] below 10^21 in magnitude: with [n] the
    integer for which [n / 10] is closest to the value (the larger [n]
    when two are equally close), the digits of [n] with a point before
    the last one; a negative value is rendered from its magnitude, after
    a minus sign. *)
Definition toFixed1 (x : F64) : string :=
  let num := Z.abs (mant x) * 2 ^ Z.max 0 (expo x) in
  let den := 2 ^ Z.max 0 (- expo x) in
  let n := (20 * num + den) / (2 * den) in
  (if mant x <? 0 then "-" else "")
    ++ Number_toString (n / 10) ++ "." ++ Number_toString (n mod 10).

(** The range of ECMAScript time values, in which [Date.now()] lies. *)
Definition time_value (t : Z) : Prop :=
  - 8640000000000000 <= t <= 8640000000000000.

End JS.

(** ** The path library

    [basename] is imported from the package [universal-path], which is not
    part of the repository: it is an interface here. *)

Class UniversalPath : Type := { basename : string -> string }.

(** Modelled from the spec: [basename] of [universal-path] is missing
    from the sources; the spec calls its result "the base filename (final
    path segment)" of a path.  This instance keeps what follows the last
    slash and serves to evaluate the function on concrete inputs. *)
Fixpoint last_segment (acc p : string) : string :=
  match p with
  | EmptyString => acc
  | String c rest =>
      if Ascii.eqb c "/" then last_segment "" rest
      else last_segment (acc ++ String c "") rest
  end.

Definition posix : UniversalPath := {| basename := last_segment "" |}.

(** ** Data model *)

(** Objects that carry a [path] property. *)
Class HasPath (A : Type) : Type := path : A -> string.

Record SourceFile : Type := mkSourceFile {
  sf_path : string;
  compilationTime : Z
}.

(** A generated file is an object: [Array.prototype.includes] compares
    objects by identity, which [gf_ref] stands for. *)
Record GeneratedFile : Type := mkGeneratedFile {
  gf_ref : nat;
  gf_path : string;
  sourceFiles : list SourceFile
}.

Record CopiedAsset : Type := mkCopiedAsset { ca_path : string }.

Module DisposedFiles.
Record t : Type := mk {
  generated : list GeneratedFile;
  sourcePaths : list string
}.
End DisposedFiles.

#[global] Instance SourceFile_path : HasPath SourceFile := sf_path.
#[global] Instance GeneratedFile_path : HasPath GeneratedFile := gf_path.
#[global] Instance CopiedAsset_path : HasPath CopiedAsset := ca_path.

(** [dgen.includes(generatedFile)]: membership by object identity. *)
Definition includes_object (a : list GeneratedFile) (g : GeneratedFile)
    : bool :=
  existsb (fun x => Nat.eqb (gf_ref x) (gf_ref g)) a.

(** ** generateCompilationLog *)

(** The variables of one pass of the outer [forEach] body. *)
Record Locals : Type := mkLocals {
  isChanged : bool;
  locallyCompiledCount : Z
}.

(** The accumulators that the loops mutate. *)
Record Names : Type := mkNames {
  generated : list string;
  compiled : list string;
  cachedCount : Z
}.

Section Log.
Context {UP : UniversalPath}.

Definition getName {A : Type} `{HasPath A} (file : A) : string :=
  basename (path file).

(** Body of the inner [forEach], lines 100-110. *)
Definition sourceStep (startTime : Z) (dgen : list GeneratedFile)
    (generatedFile : GeneratedFile)
    (st : Locals * list string) (sourceFile : SourceFile)
    : Locals * list string :=
  let (loc, comp) := st in
  let st1 :=
    if compilationTime sourceFile >=? startTime then
      let sourceName := getName sourceFile in
      (mkLocals true (locallyCompiledCount loc + 1),
       if negb (JS.includes comp sourceName)
       then (comp ++ [sourceName])%list else comp)
    else (loc, comp) in
  if negb (isChanged (fst st1)) && includes_object dgen generatedFile
  then (mkLocals true (locallyCompiledCount (fst st1)), snd st1)
  else st1.

(** Body of the outer [forEach], lines 96-115. *)
Definition generatedStep (startTime : Z) (dgen : list GeneratedFile)
    (acc : Names) (generatedFile : GeneratedFile) : Names :=
  let len := JS.Array_length (sourceFiles generatedFile) in
  let (loc, comp) :=
    fold_left (sourceStep startTime dgen generatedFile)
      (sourceFiles generatedFile) (mkLocals false 0, compiled acc) in
  if isChanged loc then
    mkNames (generated acc ++ [getName generatedFile])%list comp
      (cachedCount acc + (len - locallyCompiledCount loc))
  else mkNames (generated acc) comp (cachedCount acc).

(** Lines 92-115: the three accumulators after the loops. *)
Definition collect (startTime : Z) (generatedFiles : list GeneratedFile)
    (dgen : list GeneratedFile) : Names :=
  fold_left (generatedStep startTime dgen) generatedFiles (mkNames [] [] 0).

(** Lines 117-123. *)
Definition generatedLog (generated : list string) : string :=
  match List.length generated with
  | 0%nat => ""
  | 1%nat => " into " ++ JS.Array_toString generated
  | _ =>
      " into " ++ JS.Number_toString (JS.Array_length generated) ++ " files"
  end.

(** Lines 124-136. *)
Definition compiledLog (compiled disposed : list string) : string :=
  match List.length compiled with
  | 0%nat =>
      match List.length disposed with
      | 0%nat => ""
      | 1%nat => "removed " ++ JS.Array_toString disposed
      | _ => "removed " ++ JS.Number_toString (JS.Array_length disposed)
      end
  | 1%nat => "compiled " ++ JS.Array_toString compiled
  | _ => "compiled " ++ JS.Number_toString (JS.Array_length compiled)
  end.

(** Lines 137-149. *)
Definition cachedLog (generated compiled : list string) (cachedCount : Z)
    : string :=
  if cachedCount =? 0 then
    (if JS.Array_length compiled <=? 1 then "" else " files")
  else
    match List.length compiled with
    | 0%nat =>
        let noun :=
          if JS.Array_length generated >? 1 then "" else " files" in
        " and wrote " ++ JS.Number_toString cachedCount ++ " cached" ++ noun
    | 1%nat =>
        let cachedCountName :=
          "file" ++ (if cachedCount =? 1 then "" else "s") in
        " and " ++ JS.Number_toString cachedCount ++ " cached "
          ++ cachedCountName
    | _ => " files and " ++ JS.Number_toString cachedCount ++ " cached"
    end.

(** Lines 152-160. *)
Definition assetsLog (copied compiled : list string) : string :=
  match List.length copied with
  | 0%nat => ""
  | 1%nat => "copied " ++ JS.Array_toString copied
  | _ =>
      if negb (JS.Array_length compiled =? 0)
      then "copied " ++ JS.Number_toString (JS.Array_length copied)
      else
        "copied " ++ JS.Number_toString (JS.Array_length copied) ++ " files"
  end.

Definition nonAssetsLog (names : Names) (disposed : list string) : string :=
  compiledLog (compiled names) disposed
    ++ cachedLog (generated names) (compiled names) (cachedCount names)
    ++ generatedLog (generated names).

(** The cached clause of a pass, [cachedLog] on its accumulators. *)
Definition cachedClause (names : Names) : string :=
  cachedLog (generated names) (compiled names) (cachedCount names).

(** Line 151. *)
Definition sep (nonAssets : string) (copied : list string) : string :=
  if JS.truthy nonAssets && negb (JS.Array_length copied =? 0)
  then ", " else "".

(** Lines 90-161: [main], which the clock does not enter. *)
Definition mainLog (startTime : Z) (copiedAssets : list CopiedAsset)
    (generatedFiles : list GeneratedFile) (disposedFiles : DisposedFiles.t)
    : string :=
  let copied := map getName copiedAssets in
  let dgen := DisposedFiles.generated disposedFiles in
  let names := collect startTime generatedFiles dgen in
  let disposed := DisposedFiles.sourcePaths disposedFiles in
  let nonAssets := nonAssetsLog names disposed in
  nonAssets ++ sep nonAssets copied ++ assetsLog copied (compiled names).

Definition oneSecond : Z := 1000.

(** Lines 162-166; [now] is the value that [Date.now()] returns. *)
Definition diffText (now startTime : Z) : string :=
  let diff := JS.Number_sub now startTime in
  if diff >? oneSecond
  then JS.toFixed1 (JS.Number_div diff oneSecond) ++ " sec"
  else JS.Number_toString diff ++ " ms".

(** The function, with the reading of the clock as an explicit input. *)
Definition generateCompilationLog (now : Z) (startTime : Z)
    (copiedAssets : list CopiedAsset) (generatedFiles : list GeneratedFile)
    (disposedFiles : DisposedFiles.t) : string :=
  let main := mainLog startTime copiedAssets generatedFiles disposedFiles in
  JS.or_else main "compiled" ++ " in " ++ diffText now startTime.

End Log.

(** ** Notions that the statements below use *)

(** A source file was touched during the pass (line 101). *)
Definition changed (startTime : Z) (sourceFile : SourceFile) : bool :=
  compilationTime sourceFile >=? startTime.

(** [compiled.push(sourceName)] under the guard of line 105. *)
Definition pushNew (comp : list string) (sourceName : string) : list string :=
  if negb (JS.includes comp sourceName)
  then (comp ++ [sourceName])%list else comp.

Definition nonempty {A : Type} (l : list A) : bool :=
  match l with
  | [] => false
  | _ :: _ => true
  end.

(** The value of [isChanged] when the inner loop is over: some source
    file changed, or the loop body ran and the bundle is among the
    disposed ones. *)
Definition flagged (startTime : Z) (dgen : list GeneratedFile)
    (generatedFile : GeneratedFile) : bool :=
  existsb (changed startTime) (sourceFiles generatedFile)
  || (nonempty (sourceFiles generatedFile)
      && includes_object dgen generatedFile).

Section SpecNotions.
Context {UP : UniversalPath}.

(** The base names of the changed source files, bundle after bundle, in
    the order in which the loops meet them (repetitions kept). *)
Definition changedNames (startTime : Z) (generatedFiles : list GeneratedFile)
    : list string :=
  flat_map
    (fun g => map getName (filter (changed startTime) (sourceFiles g)))
    generatedFiles.

End SpecNotions.

(** A list of names reduced to the first appearance of each name. *)
Fixpoint first_appearances (l : list string) : list string :=
  match l with
  | [] => []
  | x :: r =>
      x :: filter (fun y => negb (String.eqb x y)) (first_appearances r)
  end.

Definition is_digit (c : ascii) : bool :=
  (48 <=? nat_of_ascii c)%nat && (nat_of_ascii c <=? 57)%nat.

Fixpoint all_digits (s : string) : bool :=
  match s with
  | EmptyString => true
  | String c r => is_digit c && all_digits r
  end.

(** A non-empty run of decimal digits. *)
Definition digits (s : string) : Prop :=
  s <> "" /\ all_digits s = true.

(** Digits, possibly after a minus sign. *)
Definition integer_literal (s : string) : Prop :=
  digits s \/ exists d, s = "-" ++ d /\ digits d.

(** The two forms of the text after [" in "]. *)
Inductive duration_text : string -> Prop :=
  | duration_ms : forall num,
      integer_literal num -> duration_text (num ++ " ms")
  | duration_sec : forall ds d,
      digits ds -> is_digit d = true ->
      duration_text (ds ++ "." ++ String d " sec").

(** [s.endsWith(suffix)]. *)
Definition endsWith (s suffix : string) : bool :=
  String.eqb
    (substring (String.length s - String.length suffix)
       (String.length suffix) s)
    suffix
  && (String.length suffix <=? String.length s)%nat.

(** The last character of a string. *)
Fixpoint last_char (s : string) : option ascii :=
  match s with
  | EmptyString => None
  | String c EmptyString => Some c
  | String _ r => last_char r
  end.

(** ** Sample passes

    All of them start at time 1000; a compilation time of 1000 or more is
    a file compiled during the pass, a smaller one a file from the cache. *)

Definition noDisposed : DisposedFiles.t := DisposedFiles.mk [] [].

(** Five changed style sheets that go into one bundle. *)
Definition ie7_css : GeneratedFile :=
  mkGeneratedFile 1 "public/ie7.css"
    [ mkSourceFile "app/styles/a.css" 1200;
      mkSourceFile "app/styles/b.css" 1200;
      mkSourceFile "app/styles/c.css" 1210;
      mkSourceFile "app/styles/d.css" 1215;
      mkSourceFile "app/styles/e.css" 1300 ].

(** One changed source file that is compiled on its own. *)
Definition init_js : GeneratedFile :=
  mkGeneratedFile 2 "public/init.js" [ mkSourceFile "app/init.ls" 1100 ].

(** A bundle whose source files all come from the cache. *)
Definition vendor_js : GeneratedFile :=
  mkGeneratedFile 3 "public/vendor.js"
    [ mkSourceFile "vendor/jquery.js" 10;
      mkSourceFile "vendor/lodash.js" 20 ].

(** A bundle that has lost all its source files. *)
Definition emptied_js : GeneratedFile :=
  mkGeneratedFile 4 "public/old.js" [].

(** One changed source file among [n] cached ones, for [n >= 1]; the
    changed file comes second. *)
Definition app_js (n : nat) : GeneratedFile :=
  mkGeneratedFile 5 "public/app.js"
    (mkSourceFile "app/models/user.js" 30
       :: mkSourceFile "app/controller.coffee" 1400
       :: repeat (mkSourceFile "app/views/list.js" 40) (n - 1)).

(** Two copied images. *)
Definition images : list CopiedAsset :=
  [ mkCopiedAsset "app/assets/img.png";
    mkCopiedAsset "app/assets/logo.png" ].

(** Two bundles that share a changed partial. *)
Definition main_css : GeneratedFile :=
  mkGeneratedFile 6 "public/main.css"
    [ mkSourceFile "app/styles/_partial.styl" 1500;
      mkSourceFile "app/styles/main.styl" 50 ].

Definition print_css : GeneratedFile :=
  mkGeneratedFile 7 "public/print.css"
    [ mkSourceFile "app/styles/_partial.styl" 1500;
      mkSourceFile "app/styles/print.styl" 60 ].

(** ** Further notions about a pass *)

(** A source file served from the cache: not touched during the pass. *)
Definition unchanged (startTime : Z) (sourceFile : SourceFile) : bool :=
  negb (changed startTime sourceFile).

(** The cached source files of the generated files that are flagged
    changed, bundle after bundle. *)
Definition cachedSources (startTime : Z) (dgen : list GeneratedFile)
    (generatedFiles : list GeneratedFile) : list SourceFile :=
  flat_map (fun g => filter (unchanged startTime) (sourceFiles g))
    (filter (flagged startTime dgen) generatedFiles).

(** The same generated file with its source files in another order. *)
Definition same_bundle (g g' : GeneratedFile) : Prop :=
  gf_ref g = gf_ref g' /\ gf_path g = gf_path g'
  /\ Permutation (sourceFiles g) (sourceFiles g').

(** The accumulators of two passes agree up to the order of the names. *)
Definition similar (n n' : Names) : Prop :=
  Permutation (generated n) (generated n')
  /\ Permutation (compiled n) (compiled n')
  /\ cachedCount n = cachedCount n'.

(** ** The other helpers: values *)

(** JavaScript values as far as the helpers look into them: a Number is
    integral and below 10^21 in magnitude, an object is a plain object,
    given by [Object.entries] of it. *)
#[local] Unset Elimination Schemes.
Inductive JSValue : Type :=
  | JSUndefined : JSValue
  | JSNull : JSValue
  | JSBool : bool -> JSValue
  | JSNumber : Z -> JSValue
  | JSString : string -> JSValue
  | JSArray : list JSValue -> JSValue
  | JSObject : list (string * JSValue) -> JSValue.
#[local] Set Elimination Schemes.

(** [ToString]; for an array it is [join(",")], where [undefined] and
    [null] elements give the empty string. *)
Fixpoint ToString (v : JSValue) : string :=
  match v with
  | JSUndefined => "undefined"
  | JSNull => "null"
  | JSBool b => if b then "true" else "false"
  | JSNumber z => JS.Number_toString z
  | JSString s => s
  | JSArray a =>
      String.concat ","
        (map (fun e =>
                match e with
                | JSUndefined | JSNull => ""
                | _ => ToString e
                end) a)
  | JSObject _ => "[object Object]"
  end.

(** What [Array.prototype.join] makes of one element. *)
Definition join_element (v : JSValue) : string :=
  match v with
  | JSUndefined | JSNull => ""
  | _ => ToString v
  end.

(** ** flatten (line 11) *)

(** One argument of [concat]: an array is spread, anything else is
    appended as it is. *)
Definition concat_argument (v : JSValue) : list JSValue :=
  match v with
  | JSArray a => a
  | _ => [v]
  end.

(** [[].concat(...arrays)]. *)
Definition flatten (arrays : list JSValue) : list JSValue :=
  flat_map concat_argument arrays.

(** ** prettify (lines 45-47) *)

(** [pair.join('=')] for [pair = [key, value]]. *)
Definition pair_join (pair : string * JSValue) : string :=
  fst pair ++ "=" ++ join_element (snd pair).

(** [object] is given by [Object.entries(object)]. *)
Definition prettify (object : list (string * JSValue)) : string :=
  String.concat " " (map pair_join object).

(** No character of [s] is [c]. *)
Fixpoint free_of (c : ascii) (s : string) : bool :=
  match s with
  | EmptyString => true
  | String x r => negb (Ascii.eqb x c) && free_of c r
  end.

(** Keys and printed values without space and without equals sign. *)
Definition plain_entry (pair : string * JSValue) : Prop :=
  free_of " " (fst pair) = true /\ free_of "=" (fst pair) = true
  /\ free_of " " (join_element (snd pair)) = true.

(** What [prettify] shows of an entry. *)
Definition shown (pair : string * JSValue) : string * string :=
  (fst pair, join_element (snd pair)).

(** ** getCompilationProgress (lines 8, 170-189)

    The timers are modelled by their due times: [setTimeout(f, delay)]
    at time [t] leaves a pending timer due at [t + delay], which fires at
    that time or later; the lines passed to [logger] are collected. *)

Definition LOG_DOT_ANIMATION_INTERVAL : Z := 4000.

(** [s.repeat(n)] for [0 <= n]. *)
Definition String_repeat (s : string) (n : Z) : string :=
  String.concat "" (repeat s (Z.to_nat n)).

(** The variables that the closures share, and the lines logged. *)
Record Progress : Type := mkProgress {
  iterations : Z;
  timeout : option Z;
  logged : list string
}.

(** Lines 171-177; [None] is a missing argument. *)
Definition initRunIn (timePassed : option Z) : Z :=
  let timePassed :=
    match timePassed with
    | Some t => if t =? 0 then 0 else t
    | None => 0
    end in
  let initRunIn :=
    if negb (timePassed =? 0)
    then LOG_DOT_ANIMATION_INTERVAL - timePassed
    else LOG_DOT_ANIMATION_INTERVAL in
  if initRunIn <? 0 then 0 else initRunIn.

(** The state when [getCompilationProgress] returns, called at [t0]. *)
Definition getCompilationProgress (t0 : Z) (timePassed : option Z)
    : Progress :=
  mkProgress 0 (Some (t0 + initRunIn timePassed)) [].

(** Lines 179-185, run at time [t]. *)
Definition writeWithDots (t : Z) (st : Progress) : Progress :=
  let msg :=
    if iterations st =? 7 then "still compiling" else "compiling" in
  let line := msg ++ String_repeat "." (Z.rem (iterations st) 4) in
  mkProgress (iterations st + 1) (Some (t + LOG_DOT_ANIMATION_INTERVAL))
    (logged st ++ [line])%list.

(** The function that [getCompilationProgress] returns (line 188). *)
Definition cancel (st : Progress) : Progress :=
  mkProgress (iterations st) None (logged st).

(** Lines 179-185, run at time [t], when [logger] calls the returned
    function while it is given the line: the timer that runs the
    callback has fired and is not pending any more, so [clearTimeout]
    clears nothing, and line 184 arms the next timer after it. *)
Definition writeWithDotsAndCancel (t : Z) (st : Progress) : Progress :=
  let msg :=
    if iterations st =? 7 then "still compiling" else "compiling" in
  let line := msg ++ String_repeat "." (Z.rem (iterations st) 4) in
  let during :=
    cancel (mkProgress (iterations st) None (logged st ++ [line])%list) in
  mkProgress (iterations during + 1)
    (Some (t + LOG_DOT_ANIMATION_INTERVAL)) (logged during).

(** What can happen to the ticker: its pending timer fires at some
    time, or the returned function is called, between two runs of the
    callback or by [logger] during one. *)
Inductive ProgressEvent : Type :=
  | TimerFires : Z -> ProgressEvent
  | CancelCalled : ProgressEvent
  | TimerFiresAndCancelCalled : Z -> ProgressEvent.

(** [None]: the event cannot happen in this state (no pending timer, or
    a timer that is not due yet). *)
Definition react (st : Progress) (e : ProgressEvent) : option Progress :=
  match e with
  | TimerFires t =>
      match timeout st with
      | Some due => if due <=? t then Some (writeWithDots t st) else None
      | None => None
      end
  | CancelCalled => Some (cancel st)
  | TimerFiresAndCancelCalled t =>
      match timeout st with
      | Some due =>
          if due <=? t then Some (writeWithDotsAndCancel t st) else None
      | None => None
      end
  end.

Fixpoint run (st : Progress) (events : list ProgressEvent)
    : option Progress :=
  match events with
  | [] => Some st
  | e :: rest =>
      match react st e with
      | Some st' => run st' rest
      | None => None
      end
  end.

(** The line with index [k], counting from 0. *)
Definition progressLine (k : nat) : string :=
  (if Nat.eqb k 7 then "still compiling" else "compiling")
    ++ String.concat "" (repeat "." (k mod 4)).

(** The state of the ticker as long as it runs: the lines logged so far
    are the first [iterations] lines, and the pending timer, if any, is
    due no earlier than one interval per line after the first delay. *)
Definition ticking (t0 : Z) (timePassed : option Z) (st : Progress)
    : Prop :=
  iterations st = Z.of_nat (List.length (logged st))
  /\ logged st = map progressLine (seq 0 (List.length (logged st)))
  /\ (forall due, timeout st = Some due ->
      t0 + initRunIn timePassed
        + LOG_DOT_ANIMATION_INTERVAL * iterations st <= due).

(** The number of times the timer fires in a list of events. *)
Definition firings (events : list ProgressEvent) : nat :=
  List.length
    (filter (fun e => match e with CancelCalled => false | _ => true end)
       events).

(** ** getFormattedError, formatError, formatOptimizerError (lines 49-70)

    In these functions a character is a code unit below 256. *)

(** LF and CR, the line terminators below 256. *)
Definition isLineTerminator (c : ascii) : bool :=
  let n := nat_of_ascii c in
  Nat.eqb n 10 || Nat.eqb n 13.

(** What [trim] removes: TAB, VT, FF, SP, NBSP and the line
    terminators. *)
Definition isWhiteSpace (c : ascii) : bool :=
  let n := nat_of_ascii c in
  Nat.eqb n 9 || Nat.eqb n 11 || Nat.eqb n 12 || Nat.eqb n 32
  || Nat.eqb n 160 || isLineTerminator c.

Fixpoint trimStart (s : string) : string :=
  match s with
  | EmptyString => ""
  | String c r => if isWhiteSpace c then trimStart r else s
  end.

Fixpoint trimEnd (s : string) : string :=
  match s with
  | EmptyString => ""
  | String c r =>
      match trimEnd r with
      | EmptyString => if isWhiteSpace c then "" else String c ""
      | String _ _ as r' => String c r'
      end
  end.

(** [s.trim()]. *)
Definition trim (s : string) : string := trimEnd (trimStart s).

(** [s] with [ins] put in after each of its line terminators. *)
Fixpoint after_line_terminators (ins s : string) : string :=
  match s with
  | EmptyString => ""
  | String c r =>
      String c ((if isLineTerminator c then ins else "")
                  ++ after_line_terminators ins r)
  end.

(** [s.replace(/^/gm, ins)]: the empty match at the start of the string
    and after each line terminator is replaced. *)
Definition replace_line_starts (ins s : string) : string :=
  ins ++ after_line_terminators ins s.

Fixpoint has_line_terminator (s : string) : bool :=
  match s with
  | EmptyString => false
  | String c r => isLineTerminator c || has_line_terminator r
  end.

(** The argument [err]: a string, or an object, of which the function
    uses [toString()], [stack] and, in [formatError], [pipelineCode]. *)
Inductive Thrown : Type :=
  | ThrownString : string -> Thrown
  | ThrownObject : string -> option string -> option string -> Thrown.

(** The [stack] of the error that is returned: the one that
    [new Error] gave it, or the one assigned at line 55. *)
Inductive Stack : Type :=
  | OwnStack : Stack
  | StackOf : option string -> Stack.

Record FormattedError : Type := mkFormattedError {
  error_name : string;
  error_message : string;
  error_stack : Stack
}.

(** [code || 'Processing'] *)
Definition code_or (code : option string) (default : string) : string :=
  match code with
  | Some c => JS.or_else c default
  | None => default
  end.

(** Lines 49-62. *)
Definition getFormattedError (err : Thrown) (code : option string)
    (path : string) : FormattedError :=
  let error :=
    match err with
    | ThrownString s => mkFormattedError "Error" s OwnStack
    | ThrownObject text stack _ =>
        mkFormattedError "Error" text (StackOf stack)
    end in
  let message :=
    trim (replace_line_starts "   " (trim (error_message error))) in
  mkFormattedError ""
    (code_or code "Processing" ++ " of " ++ path ++ " failed. " ++ message)
    (error_stack error).

(** [file.error.pipelineCode]; a string has no such property. *)
Definition pipelineCode (err : Thrown) : option string :=
  match err with
  | ThrownString _ => None
  | ThrownObject _ _ code => code
  end.

(** Lines 64-66, for a file with properties [error] and [path]. *)
Definition formatError (file_error : Thrown) (file_path : string)
    : FormattedError :=
  getFormattedError file_error (pipelineCode file_error) file_path.

(** Lines 68-70. *)
Definition formatOptimizerError (error : Thrown) (path : string)
    : FormattedError :=
  getFormattedError error (Some "Optimizing") path.

(** The text that the message is made from. *)
Definition thrown_text (err : Thrown) : string :=
  match err with
  | ThrownString s => s
  | ThrownObject text _ _ => text
  end.

(** ** deepFreeze (lines 191-207)

    Objects live in a heap and are named by their addresses; freezing an
    object changes the heap.  The recursion of the source ends because
    an object is frozen before its properties are visited; here it is
    bounded by [fuel], and [None] is a call that ran out of it. *)

(** A property value: an object, by its address, or a value that is not
    an object (which [Object.isFrozen] calls frozen and which is no
    [RegExp]). *)
Inductive FieldValue : Type :=
  | Primitive : FieldValue
  | Reference : nat -> FieldValue.

(** An object: what [Object.isFrozen] and [instanceof RegExp] say of it,
    and its own enumerable properties in the order of [Object.keys]. *)
Record HeapObject : Type := mkHeapObject {
  frozen : bool;
  regexp : bool;
  properties : list (string * FieldValue)
}.

Definition Heap : Type := list HeapObject.

(** [Object.freeze(object)]. *)
Fixpoint freeze (h : Heap) (object : nat) : Heap :=
  match h, object with
  | [], _ => []
  | o :: r, O => mkHeapObject true (regexp o) (properties o) :: r
  | o :: r, S n => o :: freeze r n
  end.

(** [Object.isFrozen(value)] for the object at an address. *)
Definition isFrozen (h : Heap) (a : nat) : bool :=
  match nth_error h a with
  | Some o => frozen o
  | None => true
  end.

(** [value instanceof RegExp] for the object at an address. *)
Definition isRegExp (h : Heap) (a : nat) : bool :=
  match nth_error h a with
  | Some o => regexp o
  | None => false
  end.

Definition ownProperties (h : Heap) (a : nat) : list (string * FieldValue) :=
  match nth_error h a with
  | Some o => properties o
  | None => []
  end.

(** [except && except.includes(key)]; [None] is a missing argument. *)
Definition excepted (except : option (list string)) (key : string) : bool :=
  match except with
  | Some keys => JS.includes keys key
  | None => false
  end.

(** Lines 191-207.  The loop goes over the properties that the object
    has when it starts; the calls inside change no property. *)
Fixpoint deepFreeze (fuel : nat) (h : Heap) (object : nat)
    (except : option (list string)) : option Heap :=
  match fuel with
  | O => None
  | S fuel' =>
      let h1 := freeze h object in
      fold_left
        (fun (acc : option Heap) (entry : string * FieldValue) =>
           match acc with
           | None => None
           | Some h2 =>
               if excepted except (fst entry) then Some h2
               else
                 match snd entry with
                 | Primitive => Some h2
                 | Reference value =>
                     if isRegExp h2 value then Some h2
                     else if negb (isFrozen h2 value)
                          then deepFreeze fuel' h2 value except
                          else Some h2
                 end
           end)
        (ownProperties h1 object) (Some h1)
  end.

(** The number of objects that are not frozen. *)
Definition unfrozen (h : Heap) : nat :=
  List.length (filter (fun o => negb (frozen o)) h).

(** [h'] is [h] with more objects frozen, and nothing else changed. *)
Definition frozen_more (h h' : Heap) : Prop :=
  Forall2
    (fun o o' =>
       regexp o' = regexp o /\ properties o' = properties o
       /\ (frozen o = true -> frozen o' = true))
    h h'.

(** [b] is the value of a property of [a] that the loop does not skip:
    the key is not excepted and the value is an object, no RegExp. *)
Definition visited_property (except : option (list string)) (h : Heap)
    (a b : nat) : Prop :=
  exists key,
    In (key, Reference b) (ownProperties h a)
    /\ excepted except key = false /\ isRegExp h b = false.

(** The objects that a call on [root] gets to: [root], and the visited
    properties of the objects it gets to, found not frozen. *)
Inductive entered (except : option (list string)) (h : Heap) (root : nat)
    : nat -> Prop :=
  | entered_root : entered except h root root
  | entered_property : forall a b,
      entered except h root a ->
      visited_property except h a b ->
      isFrozen h b = false ->
      entered except h root b.

(** The body of the loop of [deepFreeze], for calls with [fuel]. *)
Definition visitProperty (fuel : nat) (except : option (list string))
    (acc : option Heap) (entry : string * FieldValue) : option Heap :=
  match acc with
  | None => None
  | Some h2 =>
      if excepted except (fst entry) then Some h2
      else
        match snd entry with
        | Primitive => Some h2
        | Reference value =>
            if isRegExp h2 value then Some h2
            else if negb (isFrozen h2 value)
                 then deepFreeze fuel h2 value except
                 else Some h2
        end
  end.

(** The values of the properties in [entries] that the loop does not
    skip. *)
Definition visited_in (except : option (list string)) (h : Heap)
    (entries : list (string * FieldValue)) (b : nat) : Prop :=
  exists key,
    In (key, Reference b) entries
    /\ excepted except key = false /\ isRegExp h b = false.

(** The objects that can be reached from [root] through properties that
    the loop does not skip. *)
Inductive reachable (except : option (list string)) (h : Heap) (root : nat)
    : nat -> Prop :=
  | reachable_root : reachable except h root root
  | reachable_property : forall a b,
      reachable except h root a ->
      visited_property except h a b ->
      reachable except h root b.

(** ** Sample inputs of the other helpers *)

(** The bundle [main_css] with its source files in the other order. *)
Definition main_css_swapped : GeneratedFile :=
  mkGeneratedFile 6 "public/main.css"
    [ mkSourceFile "app/styles/main.styl" 50;
      mkSourceFile "app/styles/_partial.styl" 1500 ].

(** A configuration object and its text. *)
Definition sample_params : list (string * JSValue) :=
  [ ("env", JSString "production"); ("jobs", JSNumber 4);
    ("debug", JSBool false); ("only", JSNull) ].

(** A heap with a cycle between the objects 0 and 1, a RegExp (2), an
    object under the key ["skip"] (3), a frozen object (4) and an
    object that is reached through the frozen one only (5). *)
Definition sample_heap : Heap :=
  [ mkHeapObject false false
      [ ("child", Reference 1); ("pattern", Reference 2);
        ("skip", Reference 3); ("size", Primitive);
        ("self", Reference 0) ];
    mkHeapObject false false
      [ ("parent", Reference 0); ("inner", Reference 4) ];
    mkHeapObject false true [ ("lastIndex", Primitive) ];
    mkHeapObject false false [ ("x", Primitive) ];
    mkHeapObject true false [ ("deep", Reference 5) ];
    mkHeapObject false false [] ].

(** The same objects, none of them frozen. *)
Definition fresh_heap : Heap :=
  map (fun o => mkHeapObject false (regexp o) (properties o)) sample_heap.

(** ** deepAssign (lines 13-31)

    [target] and [source] are plain data: trees of values that share no
    object with each other, with ordinary writable properties.  The
    third outcome stands for the calls that leave this frame: a key
    [__proto__], a property that [target] inherits from a prototype, a
    string or an array where an object is expected. *)

Inductive Outcome : Type :=
  | Returns : JSValue -> Outcome
  | ThrowsTypeError : Outcome
  | Beyond : Outcome.

(** The names that every object inherits from [Object.prototype]. *)
Definition Object_prototype_names : list string :=
  [ "constructor"; "hasOwnProperty"; "isPrototypeOf";
    "propertyIsEnumerable"; "toLocaleString"; "toString"; "valueOf";
    "__proto__"; "__defineGetter__"; "__defineSetter__";
    "__lookupGetter__"; "__lookupSetter__" ].

(** The further names that a Number inherits from [Number.prototype]. *)
Definition Number_prototype_names : list string :=
  [ "toExponential"; "toFixed"; "toPrecision" ].

(** [toString.call(value) === '[object Object]'] *)
Definition isObject (value : JSValue) : bool :=
  match value with
  | JSObject _ => true
  | _ => false
  end.

(** [value == null] *)
Definition isNullish (value : JSValue) : bool :=
  match value with
  | JSUndefined | JSNull => true
  | _ => false
  end.

(** The own property [key] of an object given by its entries. *)
Fixpoint own (entries : list (string * JSValue)) (key : string)
    : option JSValue :=
  match entries with
  | [] => None
  | (k, v) :: rest => if String.eqb k key then Some v else own rest key
  end.

(** [object[key] = value] on the entries of [object]: the value of an
    own property is replaced where it is, a new property comes last. *)
Fixpoint set_own (entries : list (string * JSValue)) (key : string)
    (value : JSValue) : list (string * JSValue) :=
  match entries with
  | [] => [(key, value)]
  | (k, v) :: rest =>
      if String.eqb k key then (k, value) :: rest
      else (k, v) :: set_own rest key value
  end.

(** The argument [filter], when it is a function: from [target] and
    [source] to a predicate on keys and values, or to a falsy value
    ([None]). *)
Definition Filter : Type :=
  JSValue -> JSValue -> option (string -> JSValue -> bool).

(** Lines 14-16; [None] is an argument that is no function. *)
Definition shouldMerge (filter : option Filter) (target source : JSValue)
    : string -> JSValue -> bool :=
  match filter with
  | Some f =>
      match f target source with
      | Some predicate => predicate
      | None => fun _ _ => true
      end
  | None => fun _ _ => true
  end.

(** The value that line 22-23 leave in [nested], for an object
    [target] that has no inherited property [key]. *)
Definition nestedOf (entries : list (string * JSValue)) (key : string)
    : JSValue :=
  match own entries key with
  | Some v => if isNullish v then JSObject [] else v
  | None => JSObject []
  end.

(** Lines 19-27, one key of [source]; [rec] is the call of line 24.
    On a number or a boolean, line 26 throws in strict mode, and line 22
    reads [undefined] unless the key is inherited; a key [__proto__]
    reaches the accessor of [Object.prototype] on any target and is left
    outside. *)
Definition assignKey (rec : JSValue -> JSValue -> Outcome)
    (merge : string -> JSValue -> bool) (target : JSValue)
    (key : string) (value : JSValue) : Outcome :=
  match target with
  | JSObject entries =>
      if String.eqb key "__proto__" then Beyond
      else if isObject value && merge key value then
        match own entries key with
        | None =>
            if JS.includes Object_prototype_names key then Beyond
            else
              match rec (JSObject []) value with
              | Returns nested =>
                  Returns (JSObject (set_own entries key nested))
              | other => other
              end
        | Some v =>
            match rec (if isNullish v then JSObject [] else v) value with
            | Returns nested =>
                Returns (JSObject (set_own entries key nested))
            | other => other
            end
        end
      else Returns (JSObject (set_own entries key value))
  | JSUndefined | JSNull => ThrowsTypeError
  | JSBool _ =>
      if String.eqb key "__proto__" then Beyond
      else if isObject value && merge key value
              && JS.includes Object_prototype_names key
      then Beyond else ThrowsTypeError
  | JSNumber _ =>
      if String.eqb key "__proto__" then Beyond
      else if isObject value && merge key value
              && (JS.includes Object_prototype_names key
                  || JS.includes Number_prototype_names key)
      then Beyond else ThrowsTypeError
  | JSString _ | JSArray _ => Beyond
  end.

(** Line 18, [Object.keys(source).forEach]. *)
Fixpoint forEachKey (rec : JSValue -> JSValue -> Outcome)
    (merge : string -> JSValue -> bool)
    (entries : list (string * JSValue)) (target : JSValue) : Outcome :=
  match entries with
  | [] => Returns target
  | (key, value) :: rest =>
      match assignKey rec merge target key value with
      | Returns target' => forEachKey rec merge rest target'
      | other => other
      end
  end.

(** Lines 13-31. *)
Fixpoint deepAssign (filter : option Filter) (target source : JSValue)
    {struct source} : Outcome :=
  match source with
  | JSObject entries =>
      forEachKey (fun nested value => deepAssign filter nested value)
        (shouldMerge filter target source) entries target
  | JSUndefined | JSNull => ThrowsTypeError
  | JSBool _ | JSNumber _ => Returns target
  | JSString _ | JSArray _ => Beyond
  end.

(** Objects without repeated keys, at all depths that [deepAssign]
    looks into. *)
Fixpoint distinct_keys (v : JSValue) : Prop :=
  match v with
  | JSObject entries =>
      NoDup (map fst entries)
      /\ (fix all (l : list (string * JSValue)) : Prop :=
            match l with
            | [] => True
            | (_, x) :: r => distinct_keys x /\ all r
            end) entries
  | _ => True
  end.

(** A target, a source and what [deepAssign] makes of them. *)
Definition sample_target : list (string * JSValue) :=
  [ ("paths", JSObject [("public", JSString "public")]);
    ("jobs", JSNumber 2) ].

Definition sample_source : list (string * JSValue) :=
  [ ("paths", JSObject [("watched", JSArray [JSString "app"])]);
    ("env", JSString "production") ].

Definition sample_merged : list (string * JSValue) :=
  [ ("paths", JSObject [ ("public", JSString "public");
                         ("watched", JSArray [JSString "app"]) ]);
    ("jobs", JSNumber 2);
    ("env", JSString "production") ].

(** ** Facts about the builtins *)

Lemma append_assoc_s (a b c : string) : (a ++ b) ++ c = a ++ (b ++ c).
Proof.
  induction a as [|x a IH]; simpl; [reflexivity | now rewrite IH].
Qed.

Lemma string_of_uint_all_digits (d : Decimal.uint) :
  all_digits (NilEmpty.string_of_uint d) = true.
Proof.
  induction d; simpl; auto.
Qed.

Lemma string_of_uint_nonempty (d : Decimal.uint) :
  d <> Decimal.Nil -> NilEmpty.string_of_uint d <> "".
Proof.
  destruct d; simpl; intros H; try discriminate. now elim H.
Qed.

Lemma Number_toString_digits (z : Z) :
  0 <= z -> digits (JS.Number_toString z).
Proof.
  intros Hz. unfold JS.Number_toString.
  destruct z as [|p|p]; simpl.
  - split; [discriminate | reflexivity].
  - split.
    + apply string_of_uint_nonempty, DecimalPos.Unsigned.to_uint_nonnil.
    + apply string_of_uint_all_digits.
  - lia.
Qed.

Lemma Number_toString_integer_literal (z : Z) :
  integer_literal (JS.Number_toString z).
Proof.
  destruct (Z_le_gt_dec 0 z) as [Hz|Hz].
  - left. now apply Number_toString_digits.
  - right. destruct z as [|p|p]; try lia.
    exists (JS.Number_toString (Z.pos p)). split.
    + reflexivity.
    + apply Number_toString_digits. lia.
Qed.

Lemma Number_toString_digit (z : Z) :
  0 <= z < 10 ->
  exists d, JS.Number_toString z = String d "" /\ is_digit d = true.
Proof.
  intros Hz.
  assert (H : z = 0 \/ z = 1 \/ z = 2 \/ z = 3 \/ z = 4 \/ z = 5 \/ z = 6
              \/ z = 7 \/ z = 8 \/ z = 9) by lia.
  repeat (destruct H as [-> | H]; [eexists; split; reflexivity|]).
  subst z. eexists; split; reflexivity.
Qed.

Lemma round_half_even_nonneg (p q : Z) :
  0 <= p -> 0 < q -> 0 <= JS.round_half_even p q.
Proof.
  intros Hp Hq. unfold JS.round_half_even.
  assert (0 <= p / q) by (apply Z.div_pos; lia).
  destruct (2 * (p mod q) <? q); [lia|].
  destruct (q <? 2 * (p mod q)); [lia|].
  destruct (Z.even (p / q)); lia.
Qed.

Lemma nearest_F64_mant_nonneg (p q : Z) :
  0 < p -> 0 < q -> 0 <= JS.mant (JS.nearest_F64 p q).
Proof.
  intros Hp Hq. unfold JS.nearest_F64. cbv zeta. simpl JS.mant.
  apply round_half_even_nonneg.
  - apply Z.mul_nonneg_nonneg; [lia|]. apply Z.pow_nonneg. lia.
  - apply Z.mul_pos_pos; [lia|]. apply Z.pow_pos_nonneg; lia.
Qed.

Lemma Number_div_pos (a b : Z) :
  0 < a -> 0 < b -> JS.Number_div a b = JS.nearest_F64 a b.
Proof.
  intros Ha Hb. unfold JS.Number_div.
  replace (a =? 0) with false by (symmetry; apply Z.eqb_neq; lia).
  rewrite (Z.abs_eq a), (Z.abs_eq b) by lia.
  rewrite (Z.sgn_pos a), (Z.sgn_pos b) by lia.
  destruct (JS.nearest_F64 a b) as [m e]. cbn [JS.mant JS.expo].
  f_equal. lia.
Qed.

(** Whatever the value, [toFixed(1)] of a positive quotient is a run of
    digits, a point and one more digit. *)
Lemma toFixed1_shape (a b : Z) :
  0 < a -> 0 < b ->
  exists ds d,
    JS.toFixed1 (JS.Number_div a b) = ds ++ "." ++ String d ""
    /\ digits ds /\ is_digit d = true.
Proof.
  intros Ha Hb. rewrite Number_div_pos by assumption.
  pose proof (nearest_F64_mant_nonneg a b Ha Hb) as Hm.
  destruct (JS.nearest_F64 a b) as [m e]. cbn [JS.mant] in Hm.
  unfold JS.toFixed1. cbv zeta. cbn [JS.mant JS.expo].
  replace (m <? 0) with false by (symmetry; apply Z.ltb_ge; lia).
  set (den := 2 ^ Z.max 0 (- e)).
  set (num := Z.abs m * 2 ^ Z.max 0 e).
  assert (Hden : 0 < den) by (apply Z.pow_pos_nonneg; lia).
  assert (Hnum : 0 <= num).
  { apply Z.mul_nonneg_nonneg; [lia|]. apply Z.pow_nonneg. lia. }
  set (n := (20 * num + den) / (2 * den)).
  assert (Hn : 0 <= n) by (apply Z.div_pos; lia).
  destruct (Number_toString_digit (n mod 10)) as (d & Hd & Hdig).
  { apply Z.mod_pos_bound. lia. }
  exists (JS.Number_toString (n / 10)), d. rewrite Hd.
  split; [reflexivity|]. split; [|exact Hdig].
  apply Number_toString_digits. apply Z.div_pos; lia.
Qed.

(** Between time values the subtraction is exact up to 2^53 and at most
    one off beyond, so the elapsed time stays far below 10^21, where
    [ToString] and [toFixed] produce plain decimal digits. *)

Lemma round_half_even_1 (x : Z) : JS.round_half_even x 1 = x.
Proof.
  unfold JS.round_half_even. rewrite Z.mod_1_r, Z.div_1_r. reflexivity.
Qed.

Lemma round_half_even_2 (x : Z) :
  Z.abs (2 * JS.round_half_even x 2 - x) <= 1.
Proof.
  unfold JS.round_half_even.
  pose proof (Z.div_mod x 2 ltac:(lia)) as E.
  pose proof (Z.mod_pos_bound x 2 ltac:(lia)) as B.
  destruct (2 * (x mod 2) <? 2) eqn:H1; [apply Z.ltb_lt in H1; lia|].
  destruct (2 <? 2 * (x mod 2)) eqn:H2; [apply Z.ltb_lt in H2; lia|].
  destruct (Z.even (x / 2)); lia.
Qed.

Lemma nearest_F64_integer (D : Z) :
  0 < D ->
  JS.nearest_F64 D 1 =
  JS.mkF64 (JS.round_half_even (D * 2 ^ Z.max 0 (52 - Z.log2 D))
              (2 ^ Z.max 0 (Z.log2 D - 52)))
    (Z.log2 D - 52).
Proof.
  intros HD. unfold JS.nearest_F64. cbv zeta.
  change (Z.log2 1) with 0. rewrite Z.sub_0_r.
  pose proof (Z.log2_nonneg D) as Hl.
  pose proof (Z.log2_spec D HD) as [Hlo _].
  rewrite (Z.max_l 0 (- Z.log2 D)), (Z.max_r 0 (Z.log2 D)) by lia.
  replace (D * 2 ^ 0 <? 1 * 2 ^ Z.log2 D) with false
    by (symmetry; apply Z.ltb_ge; lia).
  f_equal. f_equal; [f_equal; f_equal; f_equal; lia | lia].
Qed.

Lemma Number_sub_exact (a b : Z) :
  Z.abs (a - b) < 2 ^ 53 -> JS.Number_sub a b = a - b.
Proof.
  intros H. unfold JS.Number_sub. cbv zeta.
  destruct (a - b =? 0) eqn:E; [apply Z.eqb_eq in E; lia|].
  apply Z.eqb_neq in E. set (D := Z.abs (a - b)) in *.
  assert (HD : 0 < D) by (subst D; lia).
  rewrite (nearest_F64_integer D HD). cbn [JS.mant JS.expo].
  assert (Hl : Z.log2 D < 53) by (apply Z.log2_lt_pow2; lia).
  pose proof (Z.log2_nonneg D).
  replace (Z.max 0 (- (Z.log2 D - 52))) with (52 - Z.log2 D) by lia.
  replace (Z.max 0 (52 - Z.log2 D)) with (52 - Z.log2 D) by lia.
  replace (Z.max 0 (Z.log2 D - 52)) with 0 by lia.
  rewrite Z.pow_0_r, round_half_even_1, Z.mul_1_r.
  rewrite Z.div_mul by (apply Z.pow_nonzero; lia).
  subst D. lia.
Qed.

Lemma Number_sub_time_values (a b : Z) :
  JS.time_value a -> JS.time_value b ->
  Z.abs (JS.Number_sub a b - (a - b)) <= 1.
Proof.
  unfold JS.time_value. intros Ha Hb.
  destruct (Z_lt_le_dec (Z.abs (a - b)) (2 ^ 53)) as [Hs|Hs].
  - rewrite Number_sub_exact by exact Hs. lia.
  - unfold JS.Number_sub. cbv zeta.
    destruct (a - b =? 0) eqn:E; [apply Z.eqb_eq in E; lia|].
    set (D := Z.abs (a - b)) in *.
    assert (HD : 0 < D) by lia.
    rewrite (nearest_F64_integer D HD). cbn [JS.mant JS.expo].
    assert (Hl : Z.log2 D = 53).
    { assert (53 <= Z.log2 D) by (apply Z.log2_le_pow2; lia).
      assert (Z.log2 D < 54) by (apply Z.log2_lt_pow2; subst D; lia). lia. }
    rewrite Hl. change (2 ^ Z.max 0 (52 - 53)) with 1.
    change (2 ^ Z.max 0 (53 - 52)) with 2.
    change (2 ^ Z.max 0 (- (53 - 52))) with 1.
    rewrite Z.mul_1_r, Z.div_1_r.
    pose proof (round_half_even_2 D). subst D. lia.
Qed.

Lemma round_half_even_floor (p q : Z) :
  0 < q -> p / q <= JS.round_half_even p q.
Proof.
  intros Hq. unfold JS.round_half_even.
  destruct (2 * (p mod q) <? q); [lia|].
  destruct (q <? 2 * (p mod q)); [lia|].
  destruct (Z.even (p / q)); lia.
Qed.

(** The subtraction rounds, but never across 1000: the computed elapsed
    time is above 1000 exactly when the exact one is. *)
Lemma Number_sub_above_second (a b : Z) :
  1000 < JS.Number_sub a b <-> 1000 < a - b.
Proof.
  destruct (Z_lt_le_dec (Z.abs (a - b)) (2 ^ 53)) as [Hs|Hs].
  - now rewrite Number_sub_exact.
  - unfold JS.Number_sub. cbv zeta.
    destruct (a - b =? 0) eqn:E; [apply Z.eqb_eq in E; lia|].
    set (D := Z.abs (a - b)) in *.
    assert (HD : 0 < D) by lia.
    rewrite (nearest_F64_integer D HD). cbn [JS.mant JS.expo].
    assert (Hl : 53 <= Z.log2 D) by (apply Z.log2_le_pow2; lia).
    replace (Z.max 0 (- (Z.log2 D - 52))) with 0 by lia.
    replace (Z.max 0 (52 - Z.log2 D)) with 0 by lia.
    replace (Z.max 0 (Z.log2 D - 52)) with (Z.log2 D - 52) by lia.
    rewrite Z.pow_0_r, Z.mul_1_r, Z.div_1_r.
    set (K := 2 ^ (Z.log2 D - 52)).
    assert (HK : 0 < K) by (apply Z.pow_pos_nonneg; lia).
    assert (Hm : 2 ^ 52 <= JS.round_half_even D K).
    { etransitivity; [|apply round_half_even_floor; exact HK].
      apply Z.div_le_lower_bound; [exact HK|].
      subst K. rewrite <- Z.pow_add_r by lia.
      replace (Z.log2 D - 52 + 52) with (Z.log2 D) by lia.
      apply Z.log2_spec. exact HD. }
    assert (HV : 2 ^ 52 <= JS.round_half_even D K * K) by nia.
    subst D. destruct (Z.lt_trichotomy (a - b) 0) as [N|[Z0|P]].
    + rewrite (Z.sgn_neg (a - b)) by lia. split; intros; lia.
    + lia.
    + rewrite (Z.sgn_pos (a - b)) by lia. split; intros; lia.
Qed.

Lemma last_char_app (a b : string) :
  b <> "" -> last_char (a ++ b) = last_char b.
Proof.
  intros N. induction a as [|c a IH]; [reflexivity|].
  cbn [append last_char]. rewrite IH.
  destruct (a ++ b) eqn:E; [|reflexivity].
  destruct a; cbn in E; [now elim N | discriminate E].
Qed.

(** The duration in milliseconds up to 1000, in seconds above. *)
Lemma diffText_ms (now startTime : Z) :
  now - startTime <= 1000 ->
  diffText now startTime
  = JS.Number_toString (JS.Number_sub now startTime) ++ " ms".
Proof.
  intros H. unfold diffText. cbv zeta. unfold oneSecond.
  replace (JS.Number_sub now startTime >? 1000) with false; [reflexivity|].
  symmetry. rewrite Z.gtb_ltb. apply Z.ltb_ge.
  pose proof (Number_sub_above_second now startTime). lia.
Qed.

Lemma diffText_sec (now startTime : Z) :
  (exists t, diffText now startTime = t ++ " sec")
  <-> 1000 < now - startTime.
Proof.
  split.
  - intros (t & E).
    destruct (Z_lt_le_dec 1000 (now - startTime)) as [H|H]; [exact H|].
    rewrite (diffText_ms now startTime H) in E.
    apply (f_equal last_char) in E.
    rewrite !last_char_app in E by discriminate. discriminate E.
  - intros H. apply Number_sub_above_second in H.
    unfold diffText. cbv zeta. unfold oneSecond.
    replace (JS.Number_sub now startTime >? 1000) with true
      by (symmetry; now apply Z.gtb_lt).
    eexists. reflexivity.
Qed.

(** The whole line ends in [" sec"] exactly when its duration does. *)
Lemma log_sec {UP : UniversalPath} (now startTime : Z)
    (copiedAssets : list CopiedAsset) (generatedFiles : list GeneratedFile)
    (disposedFiles : DisposedFiles.t) :
  (exists t, generateCompilationLog now startTime copiedAssets
               generatedFiles disposedFiles = t ++ " sec")
  <-> 1000 < now - startTime.
Proof.
  unfold generateCompilationLog. cbv zeta.
  set (main := JS.or_else _ "compiled"). split.
  - intros (t & E).
    destruct (Z_lt_le_dec 1000 (now - startTime)) as [H|H]; [exact H|].
    rewrite (diffText_ms now startTime H), <- !append_assoc_s in E.
    apply (f_equal last_char) in E.
    rewrite !last_char_app in E by discriminate. discriminate E.
  - intros H. apply diffText_sec in H as (t & ->).
    exists (main ++ " in " ++ t). now rewrite !append_assoc_s.
Qed.

(** ** The loops *)

Section Loops.
Context {UP : UniversalPath}.
Variables (startTime : Z) (dgen : list GeneratedFile).

Lemma sourceStep_eq (g : GeneratedFile) (loc : Locals) (comp : list string)
    (sf : SourceFile) :
  sourceStep startTime dgen g (loc, comp) sf =
  (mkLocals
     (isChanged loc || changed startTime sf || includes_object dgen g)
     (locallyCompiledCount loc + (if changed startTime sf then 1 else 0)),
   if changed startTime sf then pushNew comp (getName sf) else comp).
Proof.
  unfold sourceStep, changed, pushNew.
  destruct loc as [c n].
  destruct (compilationTime sf >=? startTime); cbn [fst snd isChanged
    locallyCompiledCount].
  - rewrite orb_true_r. reflexivity.
  - rewrite orb_false_r, Z.add_0_r.
    destruct c, (includes_object dgen g); reflexivity.
Qed.

Lemma inner_loop (g : GeneratedFile) (srcs : list SourceFile) :
  forall (loc : Locals) (comp : list string),
  fold_left (sourceStep startTime dgen g) srcs (loc, comp) =
  (mkLocals
     (isChanged loc || existsb (changed startTime) srcs
      || (nonempty srcs && includes_object dgen g))
     (locallyCompiledCount loc
      + Z.of_nat (List.length (filter (changed startTime) srcs))),
   fold_left pushNew (map getName (filter (changed startTime) srcs)) comp).
Proof.
  induction srcs as [|sf r IH]; intros loc comp.
  - destruct loc as [c n]. cbn. now rewrite !orb_false_r, Z.add_0_r.
  - cbn [fold_left]. rewrite sourceStep_eq, IH.
    cbn [isChanged locallyCompiledCount existsb nonempty filter].
    destruct (changed startTime sf); cbn [map fold_left List.length].
    + f_equal. f_equal.
      * now rewrite !orb_true_r.
      * lia.
    + f_equal. f_equal.
      * destruct (isChanged loc), (existsb (changed startTime) r),
          (includes_object dgen g), (nonempty r); reflexivity.
      * lia.
Qed.

Lemma generatedStep_eq (acc : Names) (g : GeneratedFile) :
  generatedStep startTime dgen acc g =
  let srcs := sourceFiles g in
  let hits := filter (changed startTime) srcs in
  let comp := fold_left pushNew (map getName hits) (compiled acc) in
  if flagged startTime dgen g then
    mkNames (generated acc ++ [getName g])%list comp
      (cachedCount acc
       + (Z.of_nat (List.length srcs) - Z.of_nat (List.length hits)))
  else mkNames (generated acc) comp (cachedCount acc).
Proof.
  unfold generatedStep. rewrite inner_loop.
  cbn [isChanged locallyCompiledCount orb]. reflexivity.
Qed.

Lemma outer_loop_app (pre post : list GeneratedFile) (acc : Names) :
  fold_left (generatedStep startTime dgen) (pre ++ post)%list acc =
  fold_left (generatedStep startTime dgen) post
    (fold_left (generatedStep startTime dgen) pre acc).
Proof. apply fold_left_app. Qed.

Lemma outer_loop_compiled (gs : list GeneratedFile) :
  forall acc : Names,
  compiled (fold_left (generatedStep startTime dgen) gs acc) =
  fold_left pushNew (changedNames startTime gs) (compiled acc).
Proof.
  induction gs as [|g r IH]; intros acc; [reflexivity|].
  cbn [fold_left]. rewrite IH, generatedStep_eq. cbv zeta.
  unfold changedNames. cbn [flat_map]. rewrite fold_left_app.
  destruct (flagged startTime dgen g); reflexivity.
Qed.

Lemma outer_loop_generated_grows (gs : list GeneratedFile) :
  forall (acc : Names) (x : string),
  In x (generated acc) ->
  In x (generated (fold_left (generatedStep startTime dgen) gs acc)).
Proof.
  induction gs as [|g r IH]; intros acc x Hx; [exact Hx|].
  cbn [fold_left]. apply IH. rewrite generatedStep_eq. cbv zeta.
  destruct (flagged startTime dgen g); cbn [generated]; [|exact Hx].
  apply in_or_app. now left.
Qed.

End Loops.

(** ** De-duplication of the compiled names *)

Lemma includes_In (a : list string) (s : string) :
  JS.includes a s = true <-> In s a.
Proof.
  unfold JS.includes. rewrite existsb_exists. split.
  - intros (y & Hy & E). apply String.eqb_eq in E. now subst.
  - intros H. exists s. split; [exact H | apply String.eqb_refl].
Qed.

Lemma includes_snoc (a : list string) (x y : string) :
  JS.includes (a ++ [x])%list y = JS.includes a y || String.eqb x y.
Proof.
  unfold JS.includes. rewrite existsb_app. cbn.
  now rewrite orb_false_r, (String.eqb_sym y x).
Qed.

Lemma filter_absorb {A : Type} (p q : A -> bool) (l : list A) :
  (forall y, p y = true -> q y = true) ->
  filter p (filter q l) = filter p l.
Proof.
  intros Hpq. induction l as [|y l IH]; [reflexivity|]. cbn.
  destruct (q y) eqn:Q; cbn.
  - now rewrite IH.
  - destruct (p y) eqn:P; [|exact IH].
    apply Hpq in P. congruence.
Qed.

Lemma filter_both {A : Type} (p q : A -> bool) (l : list A) :
  filter p (filter q l) = filter (fun y => p y && q y) l.
Proof.
  induction l as [|y l IH]; [reflexivity|]. cbn.
  destruct (q y); cbn; rewrite ?andb_true_r, ?andb_false_r.
  - destruct (p y); now rewrite IH.
  - exact IH.
Qed.

(** The guarded pushes build the first appearances of the names that
    are not collected yet, after what is already collected. *)
Lemma pushes_first_appearances (l : list string) :
  forall acc : list string,
  fold_left pushNew l acc =
  (acc ++ filter (fun y => negb (JS.includes acc y))
            (first_appearances l))%list.
Proof.
  induction l as [|x r IH]; intros acc.
  - cbn. now rewrite app_nil_r.
  - cbn [fold_left first_appearances filter]. rewrite IH. unfold pushNew.
    destruct (JS.includes acc x) eqn:Hx; cbn [negb].
    + f_equal. symmetry. apply filter_absorb.
      intros y Hy. apply negb_true_iff in Hy. apply negb_true_iff.
      apply String.eqb_neq. intros ->. congruence.
    + rewrite <- app_assoc. f_equal. change ([x] ++ ?t)%list with (x :: t).
      f_equal. rewrite filter_both. apply filter_ext. intros y.
      now rewrite includes_snoc, negb_orb.
Qed.

Lemma first_appearances_In (l : list string) (x : string) :
  In x (first_appearances l) <-> In x l.
Proof.
  induction l as [|y r IH]; [reflexivity|]. cbn.
  rewrite filter_In, IH, negb_true_iff, String.eqb_neq.
  destruct (string_dec y x) as [->|N]; intuition congruence.
Qed.

Lemma first_appearances_NoDup (l : list string) :
  NoDup (first_appearances l).
Proof.
  induction l as [|y r IH]; cbn; constructor.
  - rewrite filter_In, negb_true_iff, String.eqb_neq. intuition.
  - now apply NoDup_filter.
Qed.

(** ** The clauses of the log line *)

Lemma or_else_truthy (a b : string) : a <> "" -> JS.or_else a b = a.
Proof. destruct a; [now intros []|reflexivity]. Qed.

Lemma or_else_nonempty (a b : string) : b <> "" -> JS.or_else a b <> "".
Proof. destruct a; cbn; [trivial | discriminate]. Qed.

Lemma names_eta (acc : Names) :
  mkNames (generated acc) (compiled acc) (cachedCount acc) = acc.
Proof. now destruct acc. Qed.

Lemma filter_unchanged (startTime : Z) (l : list SourceFile) :
  Forall (fun sf => compilationTime sf < startTime) l ->
  filter (changed startTime) l = [].
Proof.
  induction 1 as [|sf l H _ IH]; [reflexivity|]. cbn. rewrite IH.
  unfold changed. replace (compilationTime sf >=? startTime) with false;
    [reflexivity|]. symmetry. rewrite Z.geb_leb. apply Z.leb_gt. exact H.
Qed.

Lemma existsb_unchanged (startTime : Z) (l : list SourceFile) :
  Forall (fun sf => compilationTime sf < startTime) l ->
  existsb (changed startTime) l = false.
Proof.
  induction 1 as [|sf l H _ IH]; [reflexivity|]. cbn. rewrite IH.
  unfold changed. rewrite Z.geb_leb, orb_false_r. apply Z.leb_gt. exact H.
Qed.

Lemma filter_not_in_nil (l : list string) :
  filter (fun y => negb (JS.includes [] y)) l = l.
Proof.
  induction l as [|y l IH]; [reflexivity|].
  cbn [filter]. rewrite IH. reflexivity.
Qed.

Lemma diffText_shape (now startTime : Z) :
  duration_text (diffText now startTime).
Proof.
  unfold diffText. cbv zeta.
  destruct (JS.Number_sub now startTime >? oneSecond) eqn:Hd.
  - apply Z.gtb_lt in Hd. unfold oneSecond in *.
    destruct (toFixed1_shape (JS.Number_sub now startTime) 1000)
      as (ds & d & E & Hds & Hdig); [lia | lia |].
    rewrite E, !append_assoc_s. now apply duration_sec.
  - apply duration_ms, Number_toString_integer_literal.
Qed.

Section Claims.
Context {UP : UniversalPath}.

(** C1, amended.  When the cached count of a pass is 0, the cached clause
    is empty if the pass has at most one compiled name, and is [" files"]
    if it has two or more: the two cases of the claim, exchanged. *)
Theorem cachedLog_without_cached (startTime : Z)
    (generatedFiles dgen : list GeneratedFile) :
  cachedCount (collect startTime generatedFiles dgen) = 0 ->
  let names := collect startTime generatedFiles dgen in
  (JS.Array_length (compiled names) <= 1 -> cachedClause names = "")
  /\ (2 <= JS.Array_length (compiled names) -> cachedClause names = " files").
Proof.
  intros H names. subst names. unfold cachedClause, cachedLog.
  rewrite H. cbn [Z.eqb].
  set (n := JS.Array_length _).
  split; intros Hc.
  - now apply Z.leb_le in Hc as ->.
  - replace (n <=? 1) with false; [reflexivity|].
    symmetry. apply Z.leb_gt. lia.
Qed.

(** C2, amended.  A generated file that has at least one source file, none
    of them changed, and that is among the disposed generated files, is
    flagged changed: the pass over it appends its base name to the
    generated names, adds the number of its source files to the cached
    count and leaves the compiled names as they are; the base name is in
    the generated names at the end of the loops. *)
Theorem disposed_bundle_is_generated (startTime : Z)
    (dgen pre post : list GeneratedFile) (g : GeneratedFile) :
  includes_object dgen g = true ->
  sourceFiles g <> [] ->
  Forall (fun sf => compilationTime sf < startTime) (sourceFiles g) ->
  let before := collect startTime pre dgen in
  let after := generatedStep startTime dgen before g in
  generated after = (generated before ++ [getName g])%list
  /\ cachedCount after
     = cachedCount before + Z.of_nat (List.length (sourceFiles g))
  /\ compiled after = compiled before
  /\ collect startTime (pre ++ g :: post) dgen
     = fold_left (generatedStep startTime dgen) post after
  /\ In (getName g)
       (generated (collect startTime (pre ++ g :: post) dgen)).
Proof.
  intros Hd Hne Hold before after.
  assert (Hflag : flagged startTime dgen g = true).
  { unfold flagged. rewrite Hd, andb_true_r.
    destruct (sourceFiles g); [now elim Hne | apply orb_true_r]. }
  assert (Hafter : after =
    mkNames (generated before ++ [getName g])%list (compiled before)
      (cachedCount before + Z.of_nat (List.length (sourceFiles g)))).
  { subst after. rewrite generatedStep_eq. cbv zeta.
    rewrite Hflag, (filter_unchanged _ _ Hold). cbn. now rewrite Z.sub_0_r. }
  assert (Hrun : collect startTime (pre ++ g :: post) dgen
                 = fold_left (generatedStep startTime dgen) post after).
  { unfold collect. now rewrite outer_loop_app. }
  rewrite Hrun. rewrite Hafter at 1 2 3. cbn [generated compiled cachedCount].
  repeat split.
  apply outer_loop_generated_grows. rewrite Hafter. cbn [generated].
  apply in_or_app. right. now left.
Qed.

(** C3, amended.  When the elapsed time is exactly 1000 milliseconds the
    duration is rendered in milliseconds: the line ends in
    [" in 1000 ms"].  So it is for every elapsed time up to 1000.  The
    seconds form is used only when the elapsed time is above 1000
    milliseconds: the duration is the quotient with one decimal and
    [" sec"] exactly then, and the line ends in [" sec"] exactly
    then. *)
Theorem one_second_in_ms (now startTime : Z)
    (copiedAssets : list CopiedAsset) (generatedFiles : list GeneratedFile)
    (disposedFiles : DisposedFiles.t) :
  let line :=
    generateCompilationLog now startTime copiedAssets generatedFiles
      disposedFiles in
  let main :=
    JS.or_else (mainLog startTime copiedAssets generatedFiles disposedFiles)
      "compiled" in
  let diff := JS.Number_sub now startTime in
  (now - startTime = 1000 ->
   diffText now startTime = "1000 ms" /\ line = main ++ " in 1000 ms")
  /\ (now - startTime <= 1000 ->
      diffText now startTime = JS.Number_toString diff ++ " ms"
      /\ line = main ++ " in " ++ JS.Number_toString diff ++ " ms")
  /\ (diffText now startTime
      = JS.toFixed1 (JS.Number_div diff oneSecond) ++ " sec"
      <-> 1000 < now - startTime)
  /\ ((exists t, diffText now startTime = t ++ " sec")
      <-> 1000 < now - startTime)
  /\ ((exists t, line = t ++ " sec") <-> 1000 < now - startTime).
Proof.
  intros line main diff. split; [|split; [|split; [|split]]].
  - intros H.
    assert (E : diffText now startTime = "1000 ms").
    { unfold diffText, JS.Number_sub. rewrite H. reflexivity. }
    split; [exact E|]. unfold line, generateCompilationLog. now rewrite E.
  - intros H. split; [now apply diffText_ms|].
    unfold line, generateCompilationLog.
    now rewrite (diffText_ms now startTime H).
  - split.
    + intros E. apply diffText_sec. eexists. exact E.
    + intros H. apply Number_sub_above_second in H.
      unfold diffText. cbv zeta. fold diff. unfold oneSecond.
      replace (diff >? 1000) with true; [reflexivity|].
      symmetry. now apply Z.gtb_lt.
  - apply diffText_sec.
  - apply log_sec.
Qed.

(** C6.  With no copied asset, no generated file and nothing disposed,
    the line is ["compiled in "] followed by the duration. *)
Theorem nothing_happened (now startTime : Z) :
  generateCompilationLog now startTime [] [] (DisposedFiles.mk [] [])
  = "compiled in " ++ diffText now startTime.
Proof. reflexivity. Qed.

(** C9.  The text before the duration is a function of startTime,
    copiedAssets, generatedFiles and disposedFiles: calls that differ in
    the time of the call only differ in the duration after [" in "]. *)
Theorem main_independent_of_clock (startTime : Z)
    (copiedAssets : list CopiedAsset) (generatedFiles : list GeneratedFile)
    (disposedFiles : DisposedFiles.t) :
  exists main : string,
    forall now : Z,
      generateCompilationLog now startTime copiedAssets generatedFiles
        disposedFiles
      = main ++ " in " ++ diffText now startTime.
Proof.
  exists (JS.or_else
            (mainLog startTime copiedAssets generatedFiles disposedFiles)
            "compiled").
  intros now. reflexivity.
Qed.

(** C10.  A generated file without source files is never flagged changed,
    whether it is among the disposed generated files or not: the pass
    over it leaves the three accumulators as they are, and the loops and
    the log line are those of the same input without it. *)
Theorem bundle_without_sources_ignored (now startTime : Z)
    (copiedAssets : list CopiedAsset) (pre post : list GeneratedFile)
    (g : GeneratedFile) (disposedFiles : DisposedFiles.t) :
  sourceFiles g = [] ->
  let dgen := DisposedFiles.generated disposedFiles in
  (forall acc : Names, generatedStep startTime dgen acc g = acc)
  /\ collect startTime (pre ++ g :: post) dgen
     = collect startTime (pre ++ post) dgen
  /\ generateCompilationLog now startTime copiedAssets (pre ++ g :: post)
       disposedFiles
     = generateCompilationLog now startTime copiedAssets (pre ++ post)
         disposedFiles.
Proof.
  intros Hg dgen.
  assert (Hstep : forall acc, generatedStep startTime dgen acc g = acc).
  { intros acc. unfold generatedStep. rewrite Hg. cbn. apply names_eta. }
  assert (Hrun : collect startTime (pre ++ g :: post) dgen
                 = collect startTime (pre ++ post) dgen).
  { unfold collect. rewrite !outer_loop_app. cbn [fold_left].
    now rewrite Hstep. }
  repeat split; [exact Hstep | exact Hrun |].
  unfold generateCompilationLog, mainLog. fold dgen. now rewrite Hrun.
Qed.

(** C4, amended.  For a single generated file with exactly one changed
    source file and [n >= 1] unchanged ones, the line starts with
    ["compiled <name>"] and the cached clause is [" and n cached file"]
    followed by ["s"] unless [n] is 1: with one compiled name, singular
    or plural follows the cached count itself. *)
Theorem one_compiled_among_cached (now startTime : Z)
    (copiedAssets : list CopiedAsset) (g : GeneratedFile)
    (pre post : list SourceFile) (sf : SourceFile)
    (disposedFiles : DisposedFiles.t) :
  sourceFiles g = (pre ++ sf :: post)%list ->
  compilationTime sf >= startTime ->
  Forall (fun s => compilationTime s < startTime) pre ->
  Forall (fun s => compilationTime s < startTime) post ->
  (1 <= List.length pre + List.length post)%nat ->
  let n := Z.of_nat (List.length pre + List.length post) in
  let copied := map getName copiedAssets in
  let names :=
    collect startTime [g] (DisposedFiles.generated disposedFiles) in
  let nonAssets :=
    "compiled " ++ getName sf ++ " and " ++ JS.Number_toString n
      ++ " cached file" ++ (if n =? 1 then "" else "s")
      ++ " into " ++ getName g in
  names = mkNames [getName g] [getName sf] n
  /\ nonAssetsLog names (DisposedFiles.sourcePaths disposedFiles)
     = nonAssets
  /\ generateCompilationLog now startTime copiedAssets [g] disposedFiles
     = nonAssets ++ sep nonAssets copied
         ++ assetsLog copied [getName sf]
         ++ " in " ++ diffText now startTime.
Proof.
  intros Hsrc Hnew Hpre Hpost Hn n copied names nonAssets.
  assert (Hch : changed startTime sf = true).
  { unfold changed. rewrite Z.geb_leb. apply Z.leb_le. lia. }
  assert (Hnames : names = mkNames [getName g] [getName sf] n).
  { subst names. unfold collect. cbn [fold_left].
    rewrite generatedStep_eq. cbv zeta. unfold flagged.
    rewrite Hsrc, existsb_app, filter_app. cbn [existsb filter].
    rewrite Hch, orb_true_r, (filter_unchanged _ _ Hpre),
      (filter_unchanged _ _ Hpost). cbn. f_equal.
    rewrite length_app. cbn [List.length]. subst n. lia. }
  assert (Hlog : nonAssetsLog names
                   (DisposedFiles.sourcePaths disposedFiles) = nonAssets).
  { rewrite Hnames. unfold nonAssetsLog, compiledLog, cachedLog,
      generatedLog. cbn [generated compiled cachedCount List.length].
    replace (n =? 0) with false by (symmetry; apply Z.eqb_neq; lia).
    subst nonAssets. cbn. rewrite !append_assoc_s. cbn.
    now destruct (n =? 1). }
  split; [exact Hnames|]. split; [exact Hlog|].
  unfold generateCompilationLog, mainLog. cbv zeta.
  fold names. fold copied. rewrite Hlog, Hnames. cbn [compiled].
  rewrite or_else_truthy by (subst nonAssets; discriminate).
  now rewrite !append_assoc_s.
Qed.

(** C5.  With time values for the start of the pass and for the time of
    the call, the function returns a non-empty line that ends in
    [" in "] followed by an integer and [" ms"], or by digits, a point,
    one digit and [" sec"]; what precedes [" in "] is not empty, and
    the elapsed time is in the range where numbers are printed in plain
    decimal digits. *)
Theorem log_line_shape (now startTime : Z)
    (copiedAssets : list CopiedAsset) (generatedFiles : list GeneratedFile)
    (disposedFiles : DisposedFiles.t) :
  JS.time_value now -> JS.time_value startTime ->
  let line :=
    generateCompilationLog now startTime copiedAssets generatedFiles
      disposedFiles in
  line <> ""
  /\ (exists main text : string,
        main <> "" /\ line = main ++ " in " ++ text /\ duration_text text)
  /\ Z.abs (JS.Number_sub now startTime) < 10 ^ 21.
Proof.
  intros Hnow Hstart line. subst line. unfold generateCompilationLog.
  set (m := JS.or_else _ "compiled").
  assert (Hm : m <> "") by (apply or_else_nonempty; discriminate).
  split; [|split].
  - destruct m; [now elim Hm | discriminate].
  - exists m, (diffText now startTime).
    split; [exact Hm|]. split; [reflexivity | apply diffText_shape].
  - pose proof (Number_sub_time_values now startTime Hnow Hstart).
    unfold JS.time_value in *. lia.
Qed.

(** C7.  The compiled names are the base names of the changed source
    files reduced to their first appearances: none is repeated and
    none is lost; a
    changed source file whose base name is collected already leaves the
    list as it is and still adds one to the compiled count of its
    bundle. *)
Theorem compiled_names_first_appearances (startTime : Z)
    (generatedFiles dgen : list GeneratedFile) :
  let names := collect startTime generatedFiles dgen in
  compiled names = first_appearances (changedNames startTime generatedFiles)
  /\ NoDup (compiled names)
  /\ (forall x : string,
      In x (compiled names)
      <-> In x (changedNames startTime generatedFiles))
  /\ (forall (g : GeneratedFile) (loc : Locals) (comp : list string)
         (sf : SourceFile),
       compilationTime sf >= startTime ->
       In (getName sf) comp ->
       sourceStep startTime dgen g (loc, comp) sf
       = (mkLocals true (locallyCompiledCount loc + 1), comp)).
Proof.
  intros names.
  assert (E : compiled names
              = first_appearances (changedNames startTime generatedFiles)).
  { subst names. unfold collect. rewrite outer_loop_compiled.
    cbn [compiled]. rewrite pushes_first_appearances.
    apply filter_not_in_nil. }
  split; [exact E|]. split; [|split].
  - rewrite E. apply first_appearances_NoDup.
  - intros x. rewrite E. apply first_appearances_In.
  - intros g loc comp sf Hnew Hin. rewrite sourceStep_eq.
    assert (Hch : changed startTime sf = true).
    { unfold changed. rewrite Z.geb_leb. apply Z.leb_le. lia. }
    rewrite Hch, orb_true_r. unfold pushNew.
    apply includes_In in Hin. now rewrite Hin.
Qed.

(** C8.  The assets clause is empty without copied assets, is
    ["copied "] and the base name for one copied asset, and for
    [N >= 2] copied assets is ["copied N"] when there is a compiled name
    and ["copied N files"] when there is none; it is the last clause of
    the text before the duration. *)
Theorem assetsLog_cases (startTime : Z)
    (copiedAssets : list CopiedAsset) (generatedFiles : list GeneratedFile)
    (disposedFiles : DisposedFiles.t) :
  let copied := map getName copiedAssets in
  let names :=
    collect startTime generatedFiles
      (DisposedFiles.generated disposedFiles) in
  let N := Z.of_nat (List.length copiedAssets) in
  let assets := assetsLog copied (compiled names) in
  (copiedAssets = [] -> assets = "")
  /\ (forall a, copiedAssets = [a] ->
       assets = "copied " ++ basename (ca_path a))
  /\ (2 <= N -> 0 < JS.Array_length (compiled names) ->
      assets = "copied " ++ JS.Number_toString N)
  /\ (2 <= N -> JS.Array_length (compiled names) = 0 ->
      assets = "copied " ++ JS.Number_toString N ++ " files")
  /\ mainLog startTime copiedAssets generatedFiles disposedFiles
     = nonAssetsLog names (DisposedFiles.sourcePaths disposedFiles)
         ++ sep (nonAssetsLog names
                   (DisposedFiles.sourcePaths disposedFiles)) copied
         ++ assets.
Proof.
  intros copied names N assets.
  assert (HN : JS.Array_length copied = N).
  { subst copied N. unfold JS.Array_length. now rewrite length_map. }
  assert (Hmany : 2 <= N ->
            assets = if negb (JS.Array_length (compiled names) =? 0)
                     then "copied " ++ JS.Number_toString N
                     else "copied " ++ JS.Number_toString N ++ " files").
  { intros H2. subst assets. unfold assetsLog. rewrite HN.
    unfold JS.Array_length in HN.
    destruct (List.length copied) as [|[|k]]; [lia | lia | reflexivity]. }
  repeat split.
  - intros ->. reflexivity.
  - intros a ->. reflexivity.
  - intros H2 Hc. rewrite (Hmany H2).
    replace (JS.Array_length (compiled names) =? 0) with false; [reflexivity|].
    symmetry. apply Z.eqb_neq. lia.
  - intros H2 Hc. rewrite (Hmany H2), Hc. reflexivity.
Qed.

End Claims.

(** ** The claims on the sample passes *)

Lemma cachedLog_without_cached_witness :
  cachedCount (@collect posix 1000 [ie7_css] []) = 0
  /\ 2 <= JS.Array_length (compiled (@collect posix 1000 [ie7_css] []))
  /\ cachedClause (@collect posix 1000 [ie7_css] []) = " files"
  /\ @generateCompilationLog posix 1500 1000 [] [ie7_css] noDisposed
     = "compiled 5 files into ie7.css in 500 ms".
Proof.
  split; [reflexivity|]. split; [now vm_compute|]. split.
  - apply (proj2 (@cachedLog_without_cached posix 1000 [ie7_css] []
                    eq_refl)).
    now vm_compute.
  - reflexivity.
Defined.

(** C1, as stated, fails on the five changed style sheets: the cached
    count is 0, there are five compiled names and the cached clause is
    [" files"], not the empty string. *)
Lemma cachedLog_without_cached_not_as_stated :
  ~ (forall (startTime : Z) (generatedFiles dgen : list GeneratedFile),
       cachedCount (@collect posix startTime generatedFiles dgen) = 0 ->
       (2 <= JS.Array_length
               (compiled (@collect posix startTime generatedFiles dgen)) ->
        cachedClause (@collect posix startTime generatedFiles dgen) = "")
       /\ (JS.Array_length
             (compiled (@collect posix startTime generatedFiles dgen)) <= 1 ->
           cachedClause (@collect posix startTime generatedFiles dgen)
           = " files")).
Proof.
  intros H. destruct (H 1000 [ie7_css] [] eq_refl) as [H2 _].
  assert (Hc : 2 <= 5) by now vm_compute.
  specialize (H2 Hc). vm_compute in H2. discriminate H2.
Qed.

Lemma disposed_bundle_is_generated_witness :
  includes_object [vendor_js] vendor_js = true
  /\ sourceFiles vendor_js <> []
  /\ In "vendor.js"
       (generated (@collect posix 1000 [init_js; vendor_js] [vendor_js]))
  /\ cachedCount (@collect posix 1000 [init_js; vendor_js] [vendor_js])
     = cachedCount (@collect posix 1000 [init_js] [vendor_js]) + 2.
Proof.
  assert (Hold : Forall (fun sf => compilationTime sf < 1000)
                   (sourceFiles vendor_js)) by (repeat constructor).
  assert (Hne : sourceFiles vendor_js <> []) by discriminate.
  destruct (@disposed_bundle_is_generated posix 1000 [vendor_js] [init_js]
              [] vendor_js eq_refl Hne Hold) as (_ & Hc & _ & _ & Hin).
  split; [reflexivity|]. split; [exact Hne|]. split; [exact Hin | exact Hc].
Defined.

(** C2, as stated, fails on the bundle without source files: none of its
    source files changed, it is among the disposed generated files, and
    the generated names stay empty. *)
Lemma disposed_bundle_not_always_generated :
  generated (@collect posix 1000 [emptied_js] [emptied_js]) = []
  /\ ~ (forall (startTime : Z) (dgen pre post : list GeneratedFile)
           (g : GeneratedFile),
         includes_object dgen g = true ->
         Forall (fun sf => compilationTime sf < startTime) (sourceFiles g) ->
         In (@getName posix _ _ g)
           (generated (@collect posix startTime (pre ++ g :: post) dgen))).
Proof.
  split; [reflexivity|]. intros H.
  exact (H 1000 [emptied_js] [] [] emptied_js eq_refl (Forall_nil _)).
Qed.

Lemma one_second_in_ms_witness :
  2000 - 1000 = 1000
  /\ @generateCompilationLog posix 2000 1000 [] [init_js] noDisposed
     = "compiled init.ls into init.js in 1000 ms"
  /\ 1400 - 1000 <= 1000
  /\ @generateCompilationLog posix 1400 1000 [] [init_js] noDisposed
     = "compiled init.ls into init.js in 400 ms"
  /\ 1000 < 2001 - 1000
  /\ diffText 2001 1000 = "1.0 sec".
Proof.
  assert (L : 1400 - 1000 <= 1000) by (intros H; discriminate H).
  split; [reflexivity|]. split; [|split; [exact L|split]].
  - exact (proj2 (proj1 (@one_second_in_ms posix 2000 1000 [] [init_js]
                           noDisposed) eq_refl)).
  - exact (proj2 (proj1 (proj2 (@one_second_in_ms posix 1400 1000 []
                                  [init_js] noDisposed)) L)).
  - split; [reflexivity|].
    exact (proj2 (proj1 (proj2 (proj2 (@one_second_in_ms posix 2001 1000 []
                                         [] noDisposed)))) eq_refl).
Defined.

(** C3, as stated, fails when the call is made 1000 ms after the start
    of the pass: the line ends in ["1000 ms"]. *)
Lemma one_second_not_in_sec :
  @generateCompilationLog posix 2000 1000 [] [] noDisposed
  = "compiled in 1000 ms"
  /\ ~ (forall (now startTime : Z) (copiedAssets : list CopiedAsset)
           (generatedFiles : list GeneratedFile)
           (disposedFiles : DisposedFiles.t),
         now - startTime = 1000 ->
         endsWith
           (@generateCompilationLog posix now startTime copiedAssets
              generatedFiles disposedFiles)
           " in 1.0 sec" = true).
Proof.
  split; [reflexivity|]. intros H.
  specialize (H 2000 1000 [] [] noDisposed eq_refl).
  vm_compute in H. discriminate H.
Qed.

Lemma one_compiled_among_cached_witness :
  sourceFiles (app_js 99)
  = ([mkSourceFile "app/models/user.js" 30]
       ++ mkSourceFile "app/controller.coffee" 1400
       :: repeat (mkSourceFile "app/views/list.js" 40) 98)%list
  /\ 1400 >= 1000
  /\ @generateCompilationLog posix 1500 1000 [] [app_js 99] noDisposed
     = "compiled controller.coffee and 99 cached files into app.js in 500 ms".
Proof.
  assert (Hpre : Forall (fun s => compilationTime s < 1000)
                   [mkSourceFile "app/models/user.js" 30])
    by (repeat constructor).
  assert (Hpost : Forall (fun s => compilationTime s < 1000)
                    (repeat (mkSourceFile "app/views/list.js" 40) 98)).
  { apply Forall_forall. intros x Hx. apply repeat_spec in Hx.
    subst x. reflexivity. }
  assert (Hnew : 1400 >= 1000) by now vm_compute.
  assert (Hn : (1 <= List.length [mkSourceFile "app/models/user.js" 30]
                  + List.length
                      (repeat (mkSourceFile "app/views/list.js" 40) 98))%nat).
  { cbn [List.length]. apply le_n_S, Nat.le_0_l. }
  split; [reflexivity|]. split; [exact Hnew|].
  exact (proj2 (proj2
    (@one_compiled_among_cached posix 1500 1000 [] (app_js 99)
       [mkSourceFile "app/models/user.js" 30]
       (repeat (mkSourceFile "app/views/list.js" 40) 98)
       (mkSourceFile "app/controller.coffee" 1400) noDisposed
       eq_refl Hnew Hpre Hpost Hn))).
Defined.

(** C4, as stated, fails on one changed source file among 99 cached
    ones: the cached clause is plural; and with one compiled name in
    both, the pass with 1 cached file and the pass with 99 differ in the
    choice between ["file"] and ["files"]. *)
Lemma cached_noun_follows_cached_count :
  cachedClause (@collect posix 1000 [app_js 99] []) = " and 99 cached files"
  /\ cachedClause (@collect posix 1000 [app_js 1] []) = " and 1 cached file"
  /\ ~ (forall (s1 s2 : Z) (g1 d1 g2 d2 : list GeneratedFile),
         JS.Array_length (compiled (@collect posix s1 g1 d1))
         = JS.Array_length (compiled (@collect posix s2 g2 d2)) ->
         endsWith (cachedClause (@collect posix s1 g1 d1)) " cached file"
         = endsWith (cachedClause (@collect posix s2 g2 d2))
             " cached file").
Proof.
  split; [reflexivity|]. split; [reflexivity|]. intros H.
  specialize (H 1000 1000 [app_js 1] [] [app_js 99] [] eq_refl).
  vm_compute in H. discriminate H.
Qed.

Lemma log_line_shape_witness :
  JS.time_value 1700000003500
  /\ JS.time_value 1700000000000
  /\ @generateCompilationLog posix 1700000003500 1700000000000 images
       [main_css; print_css] noDisposed
     <> "".
Proof.
  assert (Hnow : JS.time_value 1700000003500) by (split; now vm_compute).
  assert (Hstart : JS.time_value 1700000000000) by (split; now vm_compute).
  split; [exact Hnow|]. split; [exact Hstart|].
  exact (proj1 (@log_line_shape posix 1700000003500 1700000000000 images
                  [main_css; print_css] noDisposed Hnow Hstart)).
Defined.

Lemma compiled_names_first_appearances_witness :
  1500 >= 1000
  /\ In "_partial.styl" ["_partial.styl"]
  /\ compiled (@collect posix 1000 [main_css; print_css] [])
     = ["_partial.styl"]
  /\ @sourceStep posix 1000 [] print_css
       (mkLocals false 0, ["_partial.styl"])
       (mkSourceFile "app/styles/_partial.styl" 1500)
     = (mkLocals true 1, ["_partial.styl"]).
Proof.
  assert (Hnew : 1500 >= 1000) by now vm_compute.
  assert (Hin : In "_partial.styl" ["_partial.styl"]) by now left.
  destruct (@compiled_names_first_appearances posix 1000
              [main_css; print_css] []) as (Hc & _ & _ & Hstep).
  split; [exact Hnew|]. split; [exact Hin|]. split; [exact Hc|].
  exact (Hstep print_css (mkLocals false 0) ["_partial.styl"]
           (mkSourceFile "app/styles/_partial.styl" 1500) Hnew Hin).
Defined.

Lemma assetsLog_cases_witness :
  2 <= Z.of_nat (List.length images)
  /\ JS.Array_length (compiled (@collect posix 1000 [] [])) = 0
  /\ assetsLog (map (@getName posix _ _) images)
       (compiled (@collect posix 1000 [] []))
     = "copied 2 files".
Proof.
  assert (H2 : 2 <= Z.of_nat (List.length images)) by now vm_compute.
  destruct (@assetsLog_cases posix 1000 images [] noDisposed)
    as (_ & _ & _ & Hfiles & _).
  split; [exact H2|]. split; [reflexivity|].
  exact (Hfiles H2 eq_refl).
Defined.

Lemma bundle_without_sources_ignored_witness :
  sourceFiles emptied_js = []
  /\ @generateCompilationLog posix 1500 1000 [] [init_js; emptied_js]
       (DisposedFiles.mk [emptied_js] [])
     = @generateCompilationLog posix 1500 1000 [] [init_js]
         (DisposedFiles.mk [emptied_js] []).
Proof.
  split; [reflexivity|].
  exact (proj2 (proj2
    (@bundle_without_sources_ignored posix 1500 1000 [] [init_js] []
       emptied_js (DisposedFiles.mk [emptied_js] []) eq_refl))).
Defined.

(** ** The accumulators in closed form *)

Lemma filter_split_length {A : Type} (p : A -> bool) (l : list A) :
  (List.length (filter p l)
   + List.length (filter (fun x => negb (p x)) l))%nat = List.length l.
Proof.
  induction l as [|x l IH]; [reflexivity|]. cbn.
  destruct (p x); cbn; lia.
Qed.

Section ClosedForm.
Context {UP : UniversalPath}.
Variables (startTime : Z) (dgen : list GeneratedFile).

Lemma outer_loop_generated (gs : list GeneratedFile) :
  forall acc : Names,
  generated (fold_left (generatedStep startTime dgen) gs acc)
  = (generated acc
       ++ map getName (filter (flagged startTime dgen) gs))%list.
Proof.
  induction gs as [|g r IH]; intros acc.
  - cbn. now rewrite app_nil_r.
  - cbn [fold_left filter]. rewrite IH, generatedStep_eq. cbv zeta.
    destruct (flagged startTime dgen g); cbn [generated map];
      [|reflexivity].
    now rewrite <- app_assoc.
Qed.

Lemma outer_loop_cachedCount (gs : list GeneratedFile) :
  forall acc : Names,
  cachedCount (fold_left (generatedStep startTime dgen) gs acc)
  = cachedCount acc
    + Z.of_nat (List.length (cachedSources startTime dgen gs)).
Proof.
  induction gs as [|g r IH]; intros acc.
  - cbn. lia.
  - cbn [fold_left]. rewrite IH, generatedStep_eq. cbv zeta.
    unfold cachedSources. cbn [filter].
    destruct (flagged startTime dgen g); cbn [cachedCount flat_map];
      [|reflexivity].
    rewrite length_app.
    pose proof (filter_split_length (changed startTime) (sourceFiles g)).
    unfold unchanged. lia.
Qed.

Lemma cachedSources_bound (gs : list GeneratedFile) :
  (List.length (cachedSources startTime dgen gs)
   <= List.length (flat_map sourceFiles gs))%nat.
Proof.
  unfold cachedSources.
  induction gs as [|g r IH]; [apply le_n|]. cbn [filter flat_map].
  pose proof (filter_split_length (unchanged startTime) (sourceFiles g)).
  destruct (flagged startTime dgen g); cbn [flat_map];
    rewrite ?length_app; lia.
Qed.

End ClosedForm.

Section Accumulators.
Context {UP : UniversalPath}.

(** X1.  The generated names are the base names of the generated files
    that have a changed source file, or that have a source file and are
    among the disposed generated files, in the order of the input. *)
Theorem generated_names_closed_form (startTime : Z)
    (generatedFiles dgen : list GeneratedFile) :
  generated (collect startTime generatedFiles dgen)
  = map getName
      (filter
         (fun g =>
            existsb (fun sf => compilationTime sf >=? startTime)
              (sourceFiles g)
            || (nonempty (sourceFiles g) && includes_object dgen g))
         generatedFiles).
Proof.
  unfold collect. rewrite outer_loop_generated. reflexivity.
Qed.

(** X2.  The cached count is the number of unchanged source files of the
    generated files that are flagged changed; it is never negative and
    never more than the number of source files of the pass. *)
Theorem cachedCount_closed_form (startTime : Z)
    (generatedFiles dgen : list GeneratedFile) :
  cachedCount (collect startTime generatedFiles dgen)
  = Z.of_nat (List.length (cachedSources startTime dgen generatedFiles))
  /\ 0 <= cachedCount (collect startTime generatedFiles dgen)
     <= Z.of_nat (List.length (flat_map sourceFiles generatedFiles)).
Proof.
  unfold collect. rewrite outer_loop_cachedCount. cbn [cachedCount].
  pose proof (cachedSources_bound startTime dgen generatedFiles).
  split; lia.
Qed.

End Accumulators.

(** ** The order of the inputs *)

Lemma Permutation_filter {A : Type} (p : A -> bool) (l l' : list A) :
  Permutation l l' -> Permutation (filter p l) (filter p l').
Proof.
  induction 1 as [|x l l' _ IH|x y l|l l' l'' _ IH1 _ IH2]; cbn.
  - constructor.
  - destruct (p x); [now constructor | exact IH].
  - destruct (p x), (p y); try reflexivity. constructor.
  - now transitivity (filter p l').
Qed.

Lemma existsb_Permutation {A : Type} (p : A -> bool) (l l' : list A) :
  Permutation l l' -> existsb p l = existsb p l'.
Proof.
  intros H. apply eq_true_iff_eq. rewrite !existsb_exists.
  split; intros (x & Hx & Px); exists x; split; trivial.
  - now apply (Permutation_in _ H).
  - now apply (Permutation_in _ (Permutation_sym H)).
Qed.

Lemma nonempty_Permutation {A : Type} (l l' : list A) :
  Permutation l l' -> nonempty l = nonempty l'.
Proof.
  intros H. apply Permutation_length in H.
  destruct l, l'; cbn in *; congruence.
Qed.

Lemma first_appearances_Permutation (l l' : list string) :
  Permutation l l' ->
  Permutation (first_appearances l) (first_appearances l').
Proof.
  intros H. apply NoDup_Permutation; try apply first_appearances_NoDup.
  intros x. rewrite !first_appearances_In. split; intros Hx.
  - now apply (Permutation_in _ H).
  - now apply (Permutation_in _ (Permutation_sym H)).
Qed.

(** What the clauses read of a list of names: its length, and the name
    itself when there is only one. *)
Lemma Permutation_names {A : Type} (a b : list A) :
  Permutation a b ->
  a = b
  \/ exists x y a' x' y' b',
       a = x :: y :: a' /\ b = x' :: y' :: b'
       /\ List.length a = List.length b.
Proof.
  intros H. pose proof (Permutation_length H) as L.
  destruct a as [|x [|y a']].
  - left. symmetry. now apply Permutation_nil.
  - left. symmetry. now apply Permutation_length_1_inv.
  - right. destruct b as [|x' [|y' b']]; try discriminate L.
    now exists x, y, a', x', y', b'.
Qed.

Section Clauses.
Context {UP : UniversalPath}.

Lemma generatedLog_Permutation (a b : list string) :
  Permutation a b -> generatedLog a = generatedLog b.
Proof.
  intros H.
  destruct (Permutation_names a b H)
    as [->|(x & y & a' & x' & y' & b' & -> & -> & L)]; [reflexivity|].
  unfold generatedLog, JS.Array_length. rewrite L. reflexivity.
Qed.

Lemma compiledLog_Permutation (a b d e : list string) :
  Permutation a b -> Permutation d e -> compiledLog a d = compiledLog b e.
Proof.
  intros H K.
  assert (D : forall c, compiledLog c d = compiledLog c e).
  { intros c. unfold compiledLog.
    destruct (Permutation_names d e K)
      as [->|(x & y & a' & x' & y' & b' & -> & -> & L)]; [reflexivity|].
    unfold JS.Array_length. rewrite L. reflexivity. }
  rewrite D.
  destruct (Permutation_names a b H)
    as [->|(x & y & a' & x' & y' & b' & -> & -> & L)]; [reflexivity|].
  unfold compiledLog, JS.Array_length. rewrite L. reflexivity.
Qed.

Lemma cachedLog_Permutation (g g' c c' : list string) (n : Z) :
  Permutation g g' -> Permutation c c' ->
  cachedLog g c n = cachedLog g' c' n.
Proof.
  intros H K. apply Permutation_length in H, K.
  unfold cachedLog, JS.Array_length. now rewrite H, K.
Qed.

Lemma assetsLog_Permutation (a b c c' : list string) :
  Permutation a b -> Permutation c c' -> assetsLog a c = assetsLog b c'.
Proof.
  intros H K. apply Permutation_length in K.
  destruct (Permutation_names a b H)
    as [->|(x & y & a' & x' & y' & b' & -> & -> & L)];
    unfold assetsLog, JS.Array_length; rewrite K; [reflexivity|].
  rewrite L. reflexivity.
Qed.

Lemma sep_Permutation (s : string) (a b : list string) :
  Permutation a b -> sep s a = sep s b.
Proof.
  intros H. apply Permutation_length in H.
  unfold sep, JS.Array_length. now rewrite H.
Qed.

Lemma nonAssetsLog_similar (n n' : Names) (d d' : list string) :
  similar n n' -> Permutation d d' ->
  nonAssetsLog n d = nonAssetsLog n' d'.
Proof.
  intros (G & C & K) D. unfold nonAssetsLog.
  rewrite (compiledLog_Permutation _ _ _ _ C D),
    (cachedLog_Permutation _ _ _ _ (cachedCount n) G C),
    (generatedLog_Permutation _ _ G), K.
  reflexivity.
Qed.

Variable startTime : Z.

Lemma flagged_same_bundle (dgen : list GeneratedFile)
    (g g' : GeneratedFile) :
  same_bundle g g' ->
  flagged startTime dgen g = flagged startTime dgen g'.
Proof.
  intros (R & _ & S). unfold flagged, includes_object.
  now rewrite (existsb_Permutation _ _ _ S), (nonempty_Permutation _ _ S), R.
Qed.

Lemma flagged_Permutation (dgen dgen' : list GeneratedFile)
    (g : GeneratedFile) :
  Permutation dgen dgen' ->
  flagged startTime dgen g = flagged startTime dgen' g.
Proof.
  intros H. unfold flagged, includes_object.
  now rewrite (existsb_Permutation _ _ _ H).
Qed.

Lemma collect_closed_form (gs dgen : list GeneratedFile) :
  collect startTime gs dgen
  = mkNames (map getName (filter (flagged startTime dgen) gs))
      (first_appearances (changedNames startTime gs))
      (Z.of_nat (List.length (cachedSources startTime dgen gs))).
Proof.
  rewrite <- (names_eta (collect startTime gs dgen)). unfold collect.
  rewrite outer_loop_generated, outer_loop_compiled,
    outer_loop_cachedCount, pushes_first_appearances, filter_not_in_nil.
  reflexivity.
Qed.

Lemma generated_same_bundles (gs gs' dgen : list GeneratedFile) :
  Forall2 same_bundle gs gs' ->
  map getName (filter (flagged startTime dgen) gs)
  = map getName (filter (flagged startTime dgen) gs').
Proof.
  induction 1 as [|g g' r r' B _ IH]; [reflexivity|]. cbn [filter].
  rewrite <- (flagged_same_bundle dgen g g' B).
  destruct (flagged startTime dgen g); [|exact IH]. cbn [map].
  rewrite IH. f_equal. destruct B as (_ & P & _).
  unfold getName, path, GeneratedFile_path. now rewrite P.
Qed.

Lemma changedNames_same_bundles (gs gs' : list GeneratedFile) :
  Forall2 same_bundle gs gs' ->
  Permutation (changedNames startTime gs) (changedNames startTime gs').
Proof.
  unfold changedNames.
  induction 1 as [|g g' r r' B _ IH]; [constructor|]. cbn [flat_map].
  apply Permutation_app; [|exact IH].
  apply Permutation_map, Permutation_filter. apply B.
Qed.

Lemma cachedSources_same_bundles (gs gs' dgen : list GeneratedFile) :
  Forall2 same_bundle gs gs' ->
  Permutation (cachedSources startTime dgen gs)
    (cachedSources startTime dgen gs').
Proof.
  unfold cachedSources.
  induction 1 as [|g g' r r' B _ IH]; [constructor|]. cbn [filter].
  rewrite <- (flagged_same_bundle dgen g g' B).
  destruct (flagged startTime dgen g); [|exact IH]. cbn [flat_map].
  apply Permutation_app; [|exact IH].
  apply Permutation_filter. apply B.
Qed.

Lemma collect_same_bundles (gs gs' dgen : list GeneratedFile) :
  Forall2 same_bundle gs gs' ->
  similar (collect startTime gs dgen) (collect startTime gs' dgen).
Proof.
  intros H. rewrite !collect_closed_form. unfold similar.
  cbn [generated compiled cachedCount].
  rewrite (generated_same_bundles _ _ dgen H).
  split; [reflexivity|]. split.
  - now apply first_appearances_Permutation, changedNames_same_bundles.
  - now rewrite (Permutation_length
                   (cachedSources_same_bundles _ _ dgen H)).
Qed.

Lemma collect_Permutation (gs gs' dgen dgen' : list GeneratedFile) :
  Permutation gs gs' -> Permutation dgen dgen' ->
  similar (collect startTime gs dgen) (collect startTime gs' dgen').
Proof.
  intros H D. rewrite !collect_closed_form. unfold similar.
  cbn [generated compiled cachedCount].
  assert (F : filter (flagged startTime dgen') gs'
              = filter (flagged startTime dgen) gs').
  { apply filter_ext. intros g. symmetry. now apply flagged_Permutation. }
  unfold cachedSources. rewrite F. split; [|split].
  - now apply Permutation_map, Permutation_filter.
  - apply first_appearances_Permutation. unfold changedNames.
    now apply Permutation_flat_map.
  - f_equal. apply Permutation_length, Permutation_flat_map.
    now apply Permutation_filter.
Qed.

Lemma log_similar (now : Z) (ca ca' : list CopiedAsset)
    (gs gs' : list GeneratedFile) (df df' : DisposedFiles.t) :
  similar (collect startTime gs (DisposedFiles.generated df))
    (collect startTime gs' (DisposedFiles.generated df')) ->
  Permutation ca ca' ->
  Permutation (DisposedFiles.sourcePaths df)
    (DisposedFiles.sourcePaths df') ->
  generateCompilationLog now startTime ca gs df
  = generateCompilationLog now startTime ca' gs' df'.
Proof.
  intros S A D. unfold generateCompilationLog, mainLog. cbv zeta.
  assert (A' : Permutation (map getName ca) (map getName ca'))
    by now apply Permutation_map.
  rewrite (nonAssetsLog_similar _ _ _ _ S D).
  rewrite (sep_Permutation _ _ _ A').
  destruct S as (_ & C & _).
  now rewrite (assetsLog_Permutation _ _ _ _ A' C).
Qed.

(** X3.  The log line does not depend on the order of the source files
    inside the generated files. *)
Theorem log_ignores_source_order (now : Z)
    (copiedAssets : list CopiedAsset)
    (generatedFiles generatedFiles' : list GeneratedFile)
    (disposedFiles : DisposedFiles.t) :
  Forall2 same_bundle generatedFiles generatedFiles' ->
  generateCompilationLog now startTime copiedAssets generatedFiles
    disposedFiles
  = generateCompilationLog now startTime copiedAssets generatedFiles'
      disposedFiles.
Proof.
  intros H. apply log_similar; try reflexivity.
  now apply collect_same_bundles.
Qed.

(** X4.  The log line does not depend on the order of the copied assets,
    of the generated files, of the disposed generated files and of the
    disposed source paths. *)
Theorem log_ignores_input_order (now : Z)
    (copiedAssets copiedAssets' : list CopiedAsset)
    (generatedFiles generatedFiles' : list GeneratedFile)
    (disposedFiles disposedFiles' : DisposedFiles.t) :
  Permutation copiedAssets copiedAssets' ->
  Permutation generatedFiles generatedFiles' ->
  Permutation (DisposedFiles.generated disposedFiles)
    (DisposedFiles.generated disposedFiles') ->
  Permutation (DisposedFiles.sourcePaths disposedFiles)
    (DisposedFiles.sourcePaths disposedFiles') ->
  generateCompilationLog now startTime copiedAssets generatedFiles
    disposedFiles
  = generateCompilationLog now startTime copiedAssets' generatedFiles'
      disposedFiles'.
Proof.
  intros A G D P. apply log_similar; trivial.
  now apply collect_Permutation.
Qed.

End Clauses.

(** ** flatten *)

(** X5.  [flatten] removes one level of arrays and no more: on a list of
    arrays it is their concatenation, whose elements stay as they are,
    arrays included; an argument that is not an array is kept. *)
Theorem flatten_one_level (arrays : list (list JSValue))
    (others : list JSValue) :
  flatten (map JSArray arrays) = List.concat arrays
  /\ flatten (map (fun v => JSArray [v]) others) = others
  /\ (Forall (fun v => forall a, v <> JSArray a) others ->
      flatten others = others).
Proof.
  split; [|split].
  - unfold flatten. induction arrays as [|a r IH]; [reflexivity|].
    cbn. now rewrite IH.
  - unfold flatten. induction others as [|v r IH]; [reflexivity|].
    cbn. now rewrite IH.
  - unfold flatten. induction 1 as [|v r Hv _ IH]; [reflexivity|].
    cbn [flat_map]. rewrite IH.
    destruct v; try reflexivity. now elim (Hv l).
Qed.

(** X6.  [flatten] goes through concatenation, and the length of its
    result is the sum of the lengths of the arrays, counting 1 for an
    argument that is not an array. *)
Theorem flatten_app_length (xs ys : list JSValue) :
  flatten (xs ++ ys) = (flatten xs ++ flatten ys)%list
  /\ List.length (flatten xs)
     = list_sum (map (fun v => List.length (concat_argument v)) xs).
Proof.
  split.
  - unfold flatten. apply flat_map_app.
  - unfold flatten. induction xs as [|v r IH]; [reflexivity|].
    cbn [flat_map map list_sum]. now rewrite length_app, IH.
Qed.

(** ** prettify *)

Lemma append_nil_r_s (s : string) : s ++ "" = s.
Proof. induction s as [|c s IH]; cbn; [reflexivity | now rewrite IH]. Qed.

Lemma free_of_app (c : ascii) (a b : string) :
  free_of c (a ++ b) = free_of c a && free_of c b.
Proof.
  induction a as [|x a IH]; cbn; [reflexivity|].
  now rewrite IH, andb_assoc.
Qed.

(** Two strings that continue with [c], or end, after a part free of
    [c] have the same first part and the same rest. *)
Lemma split_at_first (c : ascii) (a b r r' : string) :
  free_of c a = true -> free_of c b = true ->
  (r = "" \/ exists t, r = String c t) ->
  (r' = "" \/ exists t, r' = String c t) ->
  a ++ r = b ++ r' -> a = b /\ r = r'.
Proof.
  revert b. induction a as [|x a IH]; intros b Ha Hb Hr Hr' E.
  - destruct b as [|y b]; [now split|]. cbn in E, Hb.
    apply andb_true_iff in Hb as [Hy _]. apply negb_true_iff in Hy.
    destruct Hr as [->|(t & ->)]; [discriminate E|].
    injection E as -> _. now rewrite Ascii.eqb_refl in Hy.
  - destruct b as [|y b].
    + cbn in E, Ha. apply andb_true_iff in Ha as [Hx _].
      apply negb_true_iff in Hx.
      destruct Hr' as [->|(t & ->)]; [discriminate E|].
      injection E as -> _. now rewrite Ascii.eqb_refl in Hx.
    + cbn in E, Ha, Hb. injection E as -> E.
      apply andb_true_iff in Ha as [_ Ha], Hb as [_ Hb].
      destruct (IH b Ha Hb Hr Hr' E) as [-> ->]. now split.
Qed.

Lemma concat_cons (sep x : string) (xs : list string) :
  String.concat sep (x :: xs)
  = x ++ match xs with
         | [] => ""
         | _ :: _ => sep ++ String.concat sep xs
         end.
Proof. destruct xs; cbn; [now rewrite append_nil_r_s | reflexivity]. Qed.

Lemma concat_space_inj (xs : list string) :
  forall ys : list string,
  Forall (fun s => free_of " " s = true /\ s <> "") xs ->
  Forall (fun s => free_of " " s = true /\ s <> "") ys ->
  String.concat " " xs = String.concat " " ys -> xs = ys.
Proof.
  induction xs as [|x xs IH]; intros ys Hx Hy E.
  - destruct ys as [|y ys]; [reflexivity|]. rewrite concat_cons in E.
    inversion Hy as [|? ? [_ Ny] _]. destruct y; [now elim Ny|].
    discriminate E.
  - destruct ys as [|y ys].
    + rewrite concat_cons in E. inversion Hx as [|? ? [_ Nx] _].
      destruct x; [now elim Nx | discriminate E].
    + rewrite !concat_cons in E.
      inversion Hx as [|? ? [Fx _] Hxs]. inversion Hy as [|? ? [Fy _] Hys].
      subst.
      apply (split_at_first " ") in E; trivial.
      * destruct E as [-> E]. f_equal.
        destruct xs as [|x' xs], ys as [|y' ys]; try discriminate E;
          [reflexivity|].
        apply IH; trivial. now injection E.
      * destruct xs; [now left | right; eexists; reflexivity].
      * destruct ys; [now left | right; eexists; reflexivity].
Qed.

Lemma pair_join_plain (pair : string * JSValue) :
  plain_entry pair ->
  free_of " " (pair_join pair) = true /\ pair_join pair <> "".
Proof.
  intros (Ks & _ & Vs). unfold pair_join. split.
  - rewrite free_of_app, Ks. cbn. exact Vs.
  - destruct (fst pair); discriminate.
Qed.

(** X7.  On objects whose keys contain neither a space nor an equals
    sign and whose printed values contain no space, [prettify] loses
    nothing: two objects with the same text have the same keys and the
    same printed values, in the same order. *)
Theorem prettify_unambiguous (o1 o2 : list (string * JSValue)) :
  Forall plain_entry o1 -> Forall plain_entry o2 ->
  prettify o1 = prettify o2 -> map shown o1 = map shown o2.
Proof.
  intros H1 H2 E. unfold prettify in E.
  apply concat_space_inj in E.
  - revert o2 H2 E. induction H1 as [|p o1 Hp _ IH]; intros o2 H2 E.
    + destruct o2; [reflexivity | discriminate E].
    + destruct o2 as [|q o2]; [discriminate E|]. cbn in E.
      injection E as Epq E. inversion H2 as [|? ? Hq H2']. subst.
      cbn [map]. rewrite (IH o2 H2' E). f_equal. unfold shown.
      unfold pair_join in Epq.
      destruct Hp as (_ & Kp & _), Hq as (_ & Kq & _).
      apply (split_at_first "=") in Epq; trivial;
        try (right; eexists; reflexivity).
      destruct Epq as [-> Ev]. now injection Ev as ->.
  - apply Forall_map. revert H1. apply Forall_impl.
    intros p. apply pair_join_plain.
  - apply Forall_map. revert H2. apply Forall_impl.
    intros p. apply pair_join_plain.
Qed.

Lemma concat_app (sep : string) (xs ys : list string) :
  xs <> [] -> ys <> [] ->
  String.concat sep (xs ++ ys)
  = String.concat sep xs ++ sep ++ String.concat sep ys.
Proof.
  intros Nx Ny. destruct ys as [|y ys]; [now elim Ny|]. clear Ny.
  induction xs as [|x xs IH]; [now elim Nx|]. clear Nx.
  destruct xs as [|x' xs]; [reflexivity|].
  change (String.concat sep ((x :: x' :: xs) ++ y :: ys))
    with (x ++ sep ++ String.concat sep ((x' :: xs) ++ y :: ys)).
  rewrite IH by discriminate.
  change (String.concat sep (x :: x' :: xs))
    with (x ++ sep ++ String.concat sep (x' :: xs)).
  now rewrite !append_assoc_s.
Qed.

(** X8.  [prettify] of two objects put one after the other is the two
    texts with a space between them, when neither object is empty; a
    property whose value is [null] or [undefined] is printed as its key
    and an equals sign. *)
Theorem prettify_app (o1 o2 : list (string * JSValue)) :
  o1 <> [] -> o2 <> [] ->
  prettify (o1 ++ o2) = prettify o1 ++ " " ++ prettify o2
  /\ (forall key, prettify [(key, JSNull)] = key ++ "="
                  /\ prettify [(key, JSUndefined)] = key ++ "=").
Proof.
  intros N1 N2. split; [|now split].
  unfold prettify. rewrite map_app. apply concat_app.
  - destruct o1; [now elim N1 | discriminate].
  - destruct o2; [now elim N2 | discriminate].
Qed.

(** ** getCompilationProgress *)

Lemma initRunIn_bounds (timePassed : option Z) :
  0 <= initRunIn timePassed
  /\ (match timePassed with Some t => 0 <= t | None => True end ->
      initRunIn timePassed <= LOG_DOT_ANIMATION_INTERVAL).
Proof.
  unfold initRunIn, LOG_DOT_ANIMATION_INTERVAL. cbv zeta.
  destruct timePassed as [t|].
  - destruct (Z.eqb_spec t 0) as [->|N].
    + change (negb (0 =? 0)) with false. cbv iota.
      change (4000 <? 0) with false. cbv iota. split; lia.
    + replace (t =? 0) with false by (symmetry; now apply Z.eqb_neq).
      cbn [negb]. destruct (Z.ltb_spec (4000 - t) 0); split; lia.
  - change (negb (0 =? 0)) with false. cbv iota.
    change (4000 <? 0) with false. cbv iota. split; lia.
Qed.

Lemma writeWithDots_line (t : Z) (st : Progress) (k : nat) :
  iterations st = Z.of_nat k ->
  writeWithDots t st
  = mkProgress (Z.of_nat (S k)) (Some (t + LOG_DOT_ANIMATION_INTERVAL))
      (logged st ++ [progressLine k])%list.
Proof.
  intros E. unfold writeWithDots, progressLine, String_repeat. rewrite E.
  f_equal; [lia|]. do 2 f_equal. f_equal.
  - destruct (Nat.eqb_spec k 7) as [->|N]; [reflexivity|].
    replace (Z.of_nat k =? 7) with false; [reflexivity|].
    symmetry. apply Z.eqb_neq. lia.
  - do 2 f_equal. rewrite Z.rem_mod_nonneg by lia.
    change 4 with (Z.of_nat 4). rewrite <- Nat2Z.inj_mod.
    apply Nat2Z.id.
Qed.

Lemma react_ticking (t0 : Z) (timePassed : option Z)
    (st st' : Progress) (e : ProgressEvent) :
  ticking t0 timePassed st -> react st e = Some st' ->
  ticking t0 timePassed st'.
Proof.
  intros (Hi & Hl & Hd) R.
  assert (W : forall t, writeWithDotsAndCancel t st = writeWithDots t st)
    by reflexivity.
  destruct e as [t| |t]; cbn in R; rewrite ?W in R.
  3: { destruct (timeout st) as [due|] eqn:T; [|discriminate R].
       destruct (due <=? t) eqn:L; [|discriminate R].
       apply Z.leb_le in L. injection R as <-.
       rewrite (writeWithDots_line t st _ Hi). unfold ticking.
       cbn [iterations logged timeout]. rewrite length_app.
       cbn [List.length]. rewrite Nat.add_1_r. split; [reflexivity|].
       split.
       - rewrite seq_S, map_app. cbn [map Nat.add]. now rewrite <- Hl.
       - intros due' E. injection E as <-. specialize (Hd due eq_refl).
         unfold LOG_DOT_ANIMATION_INTERVAL in *. lia. }
  - destruct (timeout st) as [due|] eqn:T; [|discriminate R].
    destruct (due <=? t) eqn:L; [|discriminate R].
    apply Z.leb_le in L. injection R as <-.
    rewrite (writeWithDots_line t st _ Hi). unfold ticking.
    cbn [iterations logged timeout]. rewrite length_app. cbn [List.length].
    rewrite Nat.add_1_r. split; [reflexivity|]. split.
    + rewrite seq_S, map_app. cbn [map Nat.add]. now rewrite <- Hl.
    + intros due' E. injection E as <-. specialize (Hd due eq_refl).
      unfold LOG_DOT_ANIMATION_INTERVAL in *. lia.
  - injection R as <-. unfold ticking, cancel. cbn [iterations logged timeout].
    split; [exact Hi|]. split; [exact Hl|]. discriminate.
Qed.

Lemma run_ticking (t0 : Z) (timePassed : option Z)
    (events : list ProgressEvent) :
  forall st st' : Progress,
  ticking t0 timePassed st -> run st events = Some st' ->
  ticking t0 timePassed st'.
Proof.
  induction events as [|e r IH]; intros st st' H R; cbn in R.
  - now injection R as <-.
  - destruct (react st e) as [st1|] eqn:E; [|discriminate R].
    eapply IH; [|exact R]. eapply react_ticking; eassumption.
Qed.

Lemma start_ticking (t0 : Z) (timePassed : option Z) :
  ticking t0 timePassed (getCompilationProgress t0 timePassed).
Proof.
  unfold ticking, getCompilationProgress. cbn. repeat split.
  intros due E. injection E as <-. lia.
Qed.

Lemma run_firings (events : list ProgressEvent) :
  forall st st' : Progress,
  run st events = Some st' ->
  List.length (logged st')
  = (List.length (logged st) + firings events)%nat.
Proof.
  unfold firings.
  induction events as [|e r IH]; intros st st' R; cbn in R.
  - injection R as <-. cbn. lia.
  - destruct (react st e) as [st1|] eqn:E; [|discriminate R].
    rewrite (IH _ _ R). destruct e as [t| |t]; cbn in E |- *.
    + destruct (timeout st) as [due|]; [|discriminate E].
      destruct (due <=? t); [|discriminate E]. injection E as <-.
      cbn [logged writeWithDots]. rewrite length_app. cbn. lia.
    + injection E as <-. reflexivity.
    + destruct (timeout st) as [due|]; [|discriminate E].
      destruct (due <=? t); [|discriminate E]. injection E as <-.
      cbn. rewrite length_app. cbn. lia.
Qed.

(** X9.  Whatever happens to the ticker, the lines it has logged are the
    first lines of one fixed sequence, one line for each time the timer
    fired: ["compiling"] followed by as many dots as the remainder of
    the index by 4, except for the line of index 7, which starts with
    ["still compiling"]. *)
Theorem progress_lines (t0 : Z) (timePassed : option Z)
    (events : list ProgressEvent) (st : Progress) :
  run (getCompilationProgress t0 timePassed) events = Some st ->
  logged st = map progressLine (seq 0 (firings events))
  /\ iterations st = Z.of_nat (firings events).
Proof.
  intros R.
  destruct (run_ticking t0 timePassed events _ _
              (start_ticking t0 timePassed) R) as (Hi & Hl & _).
  pose proof (run_firings events _ _ R) as F. cbn in F.
  rewrite <- F. now split.
Qed.

(** X10.  The line of index [k] is never logged before the first delay
    and [k] intervals of 4000 ms have passed since the call; the first
    delay is not negative, and is at most one interval when the time
    passed is not negative. *)
Theorem progress_line_not_early (t0 : Z) (timePassed : option Z)
    (events : list ProgressEvent) (st st' : Progress) (t : Z) :
  run (getCompilationProgress t0 timePassed) events = Some st ->
  react st (TimerFires t) = Some st' ->
  t0 + initRunIn timePassed + 4000 * Z.of_nat (firings events) <= t
  /\ 0 <= initRunIn timePassed
  /\ (match timePassed with Some p => 0 <= p | None => True end ->
      initRunIn timePassed <= 4000).
Proof.
  intros R F.
  destruct (run_ticking t0 timePassed events _ _
              (start_ticking t0 timePassed) R) as (Hi & _ & Hd).
  pose proof (run_firings events _ _ R) as L. cbn in L.
  destruct (initRunIn_bounds timePassed) as [B0 B1].
  split; [|split; [exact B0 | exact B1]].
  cbn in F. destruct (timeout st) as [due|]; [|discriminate F].
  destruct (due <=? t) eqn:E; [|discriminate F]. apply Z.leb_le in E.
  specialize (Hd due eq_refl). rewrite Hi, L in Hd.
  unfold LOG_DOT_ANIMATION_INTERVAL in Hd. lia.
Qed.

(** X11.  Once the returned function has been called between two runs
    of the callback, the timer never fires again and nothing more is
    logged, however often the function is called again.  Called by
    [logger] while a line is written it stops nothing: the line is
    logged and the next timer is armed as after any firing. *)
Theorem progress_cancelled (st st' : Progress)
    (events : list ProgressEvent) (t : Z) :
  (run (cancel st) events = Some st' ->
   logged st' = logged st /\ timeout st' = None
   /\ firings events = 0%nat)
  /\ react st (TimerFiresAndCancelCalled t) = react st (TimerFires t)
  /\ (forall st1, react st (TimerFiresAndCancelCalled t) = Some st1 ->
      timeout st1 = Some (t + 4000)
      /\ List.length (logged st1) = S (List.length (logged st))
      /\ react st1 (TimerFires (t + 4000))
         = Some (writeWithDots (t + 4000) st1)).
Proof.
  assert (G : forall s s', timeout s = None -> run s events = Some s' ->
              logged s' = logged s /\ timeout s' = None
              /\ firings events = 0%nat).
  { induction events as [|e r IH]; intros s s' T R; cbn in R.
    - injection R as <-. now repeat split.
    - destruct e as [u| |u]; cbn in R.
      + rewrite T in R. discriminate R.
      + apply (IH (cancel s) s' eq_refl R).
      + rewrite T in R. discriminate R. }
  split; [intros R; apply (G (cancel st) st' eq_refl R)|].
  split; [reflexivity|].
  intros st1 R. cbn in R.
  destruct (timeout st) as [due|]; [|discriminate R].
  destruct (due <=? t); [|discriminate R]. injection R as <-.
  cbn [timeout logged writeWithDotsAndCancel cancel react].
  unfold LOG_DOT_ANIMATION_INTERVAL. rewrite length_app, Z.leb_refl.
  cbn [List.length]. repeat split. lia.
Qed.

(** ** getFormattedError *)

Lemma trimStart_fixed (s : string) : trimStart (trimStart s) = trimStart s.
Proof.
  induction s as [|c r IH]; [reflexivity|]. cbn.
  destruct (isWhiteSpace c) eqn:W; [exact IH|]. cbn. now rewrite W.
Qed.

Lemma trimEnd_fixed (s : string) : trimEnd (trimEnd s) = trimEnd s.
Proof.
  induction s as [|c r IH]; [reflexivity|]. cbn.
  destruct (trimEnd r) as [|x r'] eqn:E.
  - destruct (isWhiteSpace c) eqn:W; cbn; [reflexivity|]. now rewrite W.
  - cbn. cbn in IH. destruct (trimEnd r') as [|y r'']; [|now rewrite IH].
    destruct (isWhiteSpace x); [discriminate IH | now rewrite IH].
Qed.

Lemma trimStart_length (s : string) :
  (String.length (trimStart s) <= String.length s)%nat.
Proof.
  induction s as [|x s IH]; cbn; [lia|].
  destruct (isWhiteSpace x); cbn; lia.
Qed.

(** Trimming at the end keeps a first character that is not white
    space. *)
Lemma trimEnd_keeps_start (s : string) :
  trimStart s = s -> trimStart (trimEnd s) = trimEnd s.
Proof.
  destruct s as [|c r]; [reflexivity|]. cbn.
  destruct (isWhiteSpace c) eqn:W.
  - intros E. exfalso. pose proof (trimStart_length r) as L.
    rewrite E in L. cbn in L. lia.
  - intros _. destruct (trimEnd r); cbn; now rewrite W.
Qed.

Lemma trim_fixed_start (s : string) : trimStart (trim s) = trim s.
Proof. apply trimEnd_keeps_start, trimStart_fixed. Qed.

Lemma trim_fixed_end (s : string) : trimEnd (trim s) = trim s.
Proof. apply trimEnd_fixed. Qed.

Lemma trimEnd_app (a b : string) :
  trimEnd b <> "" -> trimEnd (a ++ b) = a ++ trimEnd b.
Proof.
  intros N. induction a as [|x a IH]; [reflexivity|]. cbn. rewrite IH.
  destruct (a ++ trimEnd b) eqn:E; [|reflexivity].
  destruct a; cbn in E; [now elim N | discriminate E].
Qed.

Lemma after_line_terminators_nonempty (ins s : string) :
  s <> "" -> after_line_terminators ins s <> "".
Proof. destruct s; [now intros [] | discriminate]. Qed.

Lemma isLineTerminator_isWhiteSpace (c : ascii) :
  isLineTerminator c = true -> isWhiteSpace c = true.
Proof. unfold isWhiteSpace. intros ->. apply orb_true_r. Qed.

Lemma after_line_terminators_end (ins s : string) :
  trimEnd s = s ->
  trimEnd (after_line_terminators ins s) = after_line_terminators ins s.
Proof.
  induction s as [|c r IH]; [reflexivity|]. cbn [trimEnd]. intros E.
  destruct (trimEnd r) as [|x r'] eqn:T.
  - destruct (isWhiteSpace c) eqn:W; [discriminate E|].
    injection E as <-. cbn [after_line_terminators].
    destruct (isLineTerminator c) eqn:L.
    + apply isLineTerminator_isWhiteSpace in L. congruence.
    + cbn. now rewrite W.
  - injection E as E. cbn [after_line_terminators trimEnd].
    rewrite trimEnd_app; rewrite (IH E).
    + destruct ((if isLineTerminator c then ins else "")
                  ++ after_line_terminators ins r) eqn:A; [|reflexivity].
      exfalso. destruct (if isLineTerminator c then ins else "");
        [|discriminate A].
      cbn in A. revert A. apply after_line_terminators_nonempty.
      rewrite <- E. discriminate.
    + apply after_line_terminators_nonempty. rewrite <- E. discriminate.
Qed.

Lemma after_line_terminators_start (ins s : string) :
  trimStart s = s ->
  trimStart (after_line_terminators ins s) = after_line_terminators ins s.
Proof.
  destruct s as [|c r]; [reflexivity|]. cbn.
  destruct (isWhiteSpace c) eqn:W; [|reflexivity].
  intros E. exfalso. pose proof (trimStart_length r) as L.
  rewrite E in L. cbn in L. lia.
Qed.

Lemma after_line_terminators_none (ins s : string) :
  has_line_terminator s = false -> after_line_terminators ins s = s.
Proof.
  induction s as [|c r IH]; [reflexivity|]. cbn.
  intros H. apply orb_false_iff in H as [-> H]. cbn. now rewrite IH.
Qed.

(** The two trims and the replacement of lines 58 amount to one trim
    and three spaces after each line terminator that is left. *)
Lemma message_body (text : string) :
  trim (replace_line_starts "   " (trim text))
  = after_line_terminators "   " (trim text).
Proof.
  unfold replace_line_starts.
  change (trim ("   " ++ ?s)) with (trimEnd (trimStart s)).
  rewrite after_line_terminators_start by apply trim_fixed_start.
  apply after_line_terminators_end, trim_fixed_end.
Qed.

(** X12.  The message of the error that [getFormattedError] returns is
    the code, or ["Processing"] when the code is missing or the empty
    string, then [" of "], the path, [" failed. "] and the text of the
    error, trimmed, with three spaces put in after each line terminator
    that is left; a text of one line is only trimmed.  The name of the
    error is empty. *)
Theorem formatted_message (err : Thrown) (code : option string)
    (path : string) :
  let body := after_line_terminators "   " (trim (thrown_text err)) in
  let stage :=
    match code with
    | None | Some EmptyString => "Processing"
    | Some c => c
    end in
  error_message (getFormattedError err code path)
  = stage ++ " of " ++ path ++ " failed. " ++ body
  /\ (has_line_terminator (trim (thrown_text err)) = false ->
      error_message (getFormattedError err code path)
      = stage ++ " of " ++ path ++ " failed. " ++ trim (thrown_text err))
  /\ trim body = body
  /\ error_name (getFormattedError err code path) = "".
Proof.
  intros body stage.
  assert (S : code_or code "Processing" = stage)
    by (destruct code as [[|a c]|]; reflexivity).
  assert (E : error_message (getFormattedError err code path)
              = stage ++ " of " ++ path ++ " failed. " ++ body).
  { unfold getFormattedError, body. cbn [error_message]. rewrite S.
    destruct err; cbn [error_message thrown_text];
      now rewrite message_body. }
  split; [exact E|]. split.
  { intros L. rewrite E. unfold body.
    now rewrite (after_line_terminators_none _ _ L). }
  split; [|reflexivity].
  unfold body, trim at 1.
  rewrite after_line_terminators_start by apply trim_fixed_start.
  apply after_line_terminators_end, trim_fixed_end.
Qed.

(** ** deepFreeze *)

Lemma frozen_more_refl (h : Heap) : frozen_more h h.
Proof. induction h; constructor; auto. Qed.

Lemma frozen_more_trans (h1 h2 h3 : Heap) :
  frozen_more h1 h2 -> frozen_more h2 h3 -> frozen_more h1 h3.
Proof.
  intros H. revert h3. induction H as [|o o' r r' (R & P & F) _ IH];
    intros h3 K; inversion K as [|? o'' ? r'' (R' & P' & F') K']; subst;
    constructor.
  - repeat split; [congruence | congruence | auto].
  - now apply IH.
Qed.

Lemma frozen_more_freeze (h : Heap) (a : nat) : frozen_more h (freeze h a).
Proof.
  revert a. induction h as [|o r IH]; intros a; [constructor|].
  destruct a as [|n]; cbn.
  - constructor; [now repeat split | apply frozen_more_refl].
  - constructor; [now repeat split | apply IH].
Qed.

Lemma frozen_more_nth (h h' : Heap) (a : nat) :
  frozen_more h h' ->
  match nth_error h a, nth_error h' a with
  | Some o, Some o' =>
      regexp o' = regexp o /\ properties o' = properties o
      /\ (frozen o = true -> frozen o' = true)
  | None, None => True
  | _, _ => False
  end.
Proof.
  intros H. revert a. induction H as [|o o' r r' K _ IH]; intros a.
  - now destruct a.
  - destruct a as [|n]; cbn; [exact K | apply IH].
Qed.

Lemma frozen_more_isRegExp (h h' : Heap) (a : nat) :
  frozen_more h h' -> isRegExp h' a = isRegExp h a.
Proof.
  intros H. pose proof (frozen_more_nth h h' a H) as K.
  unfold isRegExp. destruct (nth_error h a), (nth_error h' a);
    try contradiction; [apply K | reflexivity].
Qed.

Lemma frozen_more_ownProperties (h h' : Heap) (a : nat) :
  frozen_more h h' -> ownProperties h' a = ownProperties h a.
Proof.
  intros H. pose proof (frozen_more_nth h h' a H) as K.
  unfold ownProperties. destruct (nth_error h a), (nth_error h' a);
    try contradiction; [apply K | reflexivity].
Qed.

Lemma frozen_more_isFrozen (h h' : Heap) (a : nat) :
  frozen_more h h' -> isFrozen h a = true -> isFrozen h' a = true.
Proof.
  intros H. pose proof (frozen_more_nth h h' a H) as K.
  unfold isFrozen. destruct (nth_error h a), (nth_error h' a);
    try contradiction; [apply K | reflexivity].
Qed.

Lemma frozen_more_unfrozen (h h' : Heap) :
  frozen_more h h' -> (unfrozen h' <= unfrozen h)%nat.
Proof.
  unfold unfrozen. induction 1 as [|o o' r r' (_ & _ & F) _ IH];
    [apply le_n|]. cbn.
  destruct (frozen o) eqn:Fo.
  - rewrite (F eq_refl). exact IH.
  - destruct (frozen o'); cbn; lia.
Qed.

Lemma isFrozen_freeze (h : Heap) (a c : nat) :
  isFrozen (freeze h a) c = isFrozen h c || Nat.eqb c a.
Proof.
  unfold isFrozen. revert a c. induction h as [|o r IH]; intros a c.
  - cbn. now destruct c.
  - destruct a as [|n], c as [|m]; cbn.
    + now rewrite orb_true_r.
    + now rewrite orb_false_r.
    + now rewrite orb_false_r.
    + apply IH.
Qed.

Lemma unfrozen_freeze (h : Heap) (a : nat) :
  isFrozen h a = false -> S (unfrozen (freeze h a)) = unfrozen h.
Proof.
  unfold isFrozen, unfrozen. revert a.
  induction h as [|o r IH]; intros a H.
  - now destruct a.
  - destruct a as [|n]; cbn in *.
    + rewrite H. reflexivity.
    + destruct (frozen o); cbn; now rewrite <- (IH n H).
Qed.

Lemma deepFreeze_S (fuel : nat) (h : Heap) (a : nat)
    (except : option (list string)) :
  deepFreeze (S fuel) h a except
  = fold_left (visitProperty fuel except)
      (ownProperties (freeze h a) a) (Some (freeze h a)).
Proof. reflexivity. Qed.

Lemma visitProperty_None (fuel : nat) (except : option (list string))
    (entries : list (string * FieldValue)) :
  fold_left (visitProperty fuel except) entries None = None.
Proof. induction entries; [reflexivity | assumption]. Qed.

(** With more fuel than there are objects that are not frozen, the call
    returns. *)
Lemma deepFreeze_returns (except : option (list string)) (fuel : nat) :
  forall (h : Heap) (a : nat),
  (unfrozen (freeze h a) < fuel)%nat ->
  exists h', deepFreeze fuel h a except = Some h' /\ frozen_more h h'.
Proof.
  induction fuel as [|f IH]; intros h a B; [lia|].
  rewrite deepFreeze_S.
  assert (L : forall entries h2,
            (unfrozen h2 <= f)%nat ->
            exists h3,
              fold_left (visitProperty f except) entries (Some h2) = Some h3
              /\ frozen_more h2 h3).
  { induction entries as [|[key value] r IHr]; intros h2 B2.
    - exists h2. split; [reflexivity | apply frozen_more_refl].
    - cbn [fold_left]. unfold visitProperty at 2. cbn [fst snd].
      destruct (excepted except key); [now apply IHr|].
      destruct value as [|b]; [now apply IHr|].
      destruct (isRegExp h2 b); [now apply IHr|].
      destruct (isFrozen h2 b) eqn:Fb; cbn [negb]; [now apply IHr|].
      destruct (IH h2 b) as (h3 & E & M).
      { pose proof (unfrozen_freeze h2 b Fb). lia. }
      rewrite E. destruct (IHr h3) as (h4 & E4 & M4).
      { pose proof (frozen_more_unfrozen _ _ M). lia. }
      exists h4. split; [exact E4|]. eapply frozen_more_trans; eassumption. }
  destruct (L (ownProperties (freeze h a) a) (freeze h a)) as (h' & E & M);
    [lia|].
  exists h'. split; [exact E|].
  eapply frozen_more_trans; [apply frozen_more_freeze | exact M].
Qed.

Section Entered.
Variable except : option (list string).

Lemma entered_inv (h : Heap) (a x : nat) :
  entered except h a x -> x = a \/ isFrozen h x = false.
Proof. destruct 1; [now left | now right]. Qed.

Lemma entered_trans (h : Heap) (a b c : nat) :
  entered except h a b -> entered except h b c -> entered except h a c.
Proof.
  intros Hab Hbc. induction Hbc as [|x y _ IH V F]; [exact Hab|].
  now apply (entered_property except h a x y).
Qed.

Lemma visited_property_more (h h' : Heap) (a b : nat) :
  frozen_more h h' ->
  visited_property except h a b <-> visited_property except h' a b.
Proof.
  intros M. unfold visited_property.
  now rewrite (frozen_more_ownProperties _ _ a M),
    (frozen_more_isRegExp _ _ b M).
Qed.

Lemma isFrozen_more_false (h h' : Heap) (a : nat) :
  frozen_more h h' -> isFrozen h' a = false -> isFrozen h a = false.
Proof.
  intros M F. destruct (isFrozen h a) eqn:E; [|reflexivity].
  rewrite (frozen_more_isFrozen _ _ a M E) in F. discriminate F.
Qed.

Lemma entered_more (h h' : Heap) (b c : nat) :
  frozen_more h h' -> entered except h' b c -> entered except h b c.
Proof.
  intros M. induction 1 as [|x y _ IH V F]; [constructor|].
  apply (entered_property except h b x y IH).
  - now apply (visited_property_more h h' x y M).
  - now apply (isFrozen_more_false h h').
Qed.

(** What is entered from [b] in a heap is frozen or entered from [b]
    in a heap where more is frozen, when all that was frozen since has
    been entered from somewhere. *)
Lemma entered_later (h1 h2 : Heap) (D : nat -> Prop) (b c : nat) :
  frozen_more h1 h2 ->
  (forall x, isFrozen h2 x = true ->
             isFrozen h1 x = true
             \/ exists b', D b' /\ entered except h1 b' x) ->
  (forall b' x, D b' -> entered except h1 b' x -> isFrozen h2 x = true) ->
  isFrozen h2 b = false ->
  entered except h1 b c ->
  isFrozen h2 c = true \/ entered except h2 b c.
Proof.
  intros M Hin Hout Fb. induction 1 as [|x y Hx IH V Fy].
  - right. constructor.
  - destruct IH as [Fx|Ex].
    + left. destruct (Hin x Fx) as [F1|(b' & Db & Eb)].
      * destruct (entered_inv h1 b x Hx) as [->|F]; [|congruence].
        rewrite (frozen_more_isFrozen _ _ b M F1) in Fb. discriminate Fb.
      * apply (Hout b' y Db).
        now apply (entered_property except h1 b' x y).
    + destruct (isFrozen h2 y) eqn:F2; [now left | right].
      apply (entered_property except h2 b x y Ex); [|exact F2].
      now apply (visited_property_more h1 h2 x y M).
Qed.

End Entered.

Section FrozenSet.
Variable except : option (list string).

(** The loop, given what the calls with [f] do. *)
Lemma deepFreeze_loop (f : nat) (h1 : Heap) :
  (forall h a h',
     deepFreeze f h a except = Some h' ->
     frozen_more h h'
     /\ forall c, isFrozen h' c = true
                  <-> isFrozen h c = true \/ entered except h a c) ->
  forall (entries : list (string * FieldValue)) (h2 h' : Heap)
         (D : nat -> Prop),
  frozen_more h1 h2 ->
  (forall c, isFrozen h2 c = true
             <-> isFrozen h1 c = true
                 \/ exists b, D b /\ entered except h1 b c) ->
  fold_left (visitProperty f except) entries (Some h2) = Some h' ->
  frozen_more h1 h'
  /\ forall c, isFrozen h' c = true
               <-> isFrozen h1 c = true
                   \/ exists b,
                        (D b \/ (visited_in except h1 entries b
                                 /\ isFrozen h1 b = false))
                        /\ entered except h1 b c.
Proof.
  intros IHf. induction entries as [|[key value] r IHr];
    intros h2 h' D M Inv R.
  - cbn in R. injection R as <-. split; [exact M|]. intros c.
    rewrite Inv. split; intros [F|(b & Db & E)]; auto.
    + right. exists b. auto.
    + right. exists b. split; [|exact E].
      destruct Db as [Db|[(k & [] & _) _]]. exact Db.
  - cbn [fold_left] in R.
    set (D' := fun b => D b \/ (visited_in except h1 [(key, value)] b
                                /\ isFrozen h1 b = false)).
    assert (Fin : forall h3,
              frozen_more h1 h3 ->
              (forall c, isFrozen h3 c = true
                         <-> isFrozen h1 c = true
                             \/ exists b, D' b /\ entered except h1 b c) ->
              fold_left (visitProperty f except) r (Some h3) = Some h' ->
              frozen_more h1 h'
              /\ forall c, isFrozen h' c = true
                   <-> isFrozen h1 c = true
                       \/ exists b,
                            (D b \/ (visited_in except h1
                                       ((key, value) :: r) b
                                     /\ isFrozen h1 b = false))
                            /\ entered except h1 b c).
    { intros h3 M3 Inv3 R3.
      destruct (IHr h3 h' D' M3 Inv3 R3) as [M' C]. split; [exact M'|].
      intros c. rewrite C. apply or_iff_compat_l.
      split; intros (b & Hb & E); exists b; (split; [|exact E]).
      - destruct Hb as [[Db|[(k & Hk & X) F]]|[(k & Hk & X) F]].
        + now left.
        + right. split; [|exact F]. exists k. split; [|exact X].
          destruct Hk as [Hk|[]]. now left.
        + right. split; [|exact F]. exists k. split; [|exact X].
          now right.
      - destruct Hb as [Db|[(k & [Hk|Hk] & X) F]].
        + left. now left.
        + left. right. split; [|exact F]. exists k. split; [|exact X].
          now left.
        + right. split; [|exact F]. exists k. now split. }
    assert (Same : (forall b, ~ (visited_in except h1 [(key, value)] b
                                 /\ isFrozen h1 b = false)) ->
                   fold_left (visitProperty f except) r (Some h2) = Some h' ->
                   frozen_more h1 h'
                   /\ forall c, isFrozen h' c = true
                        <-> isFrozen h1 c = true
                            \/ exists b,
                                 (D b \/ (visited_in except h1
                                            ((key, value) :: r) b
                                          /\ isFrozen h1 b = false))
                                 /\ entered except h1 b c).
    { intros No R2. apply (Fin h2 M); [|exact R2]. intros c. rewrite Inv.
      apply or_iff_compat_l.
      split; intros (b & Hb & E); exists b; (split; [|exact E]).
      - now left.
      - destruct Hb as [Db|V]; [exact Db | now elim (No b)]. }
    unfold visitProperty at 2 in R. cbn [fst snd] in R.
    destruct (excepted except key) eqn:Ex.
    { apply Same; [|exact R].
      intros b [(k & [Hk|[]] & X & _) _]. injection Hk as <- _.
      congruence. }
    destruct value as [|b].
    { apply Same; [|exact R].
      intros b [(k & [Hk|[]] & _) _]. discriminate Hk. }
    destruct (isRegExp h2 b) eqn:Rb.
    { apply Same; [|exact R].
      intros b' [(k & [Hk|[]] & _ & X) _]. injection Hk as _ <-.
      rewrite (frozen_more_isRegExp _ _ b M) in Rb. congruence. }
    assert (Vb : isFrozen h1 b = false -> D' b).
    { intros F1. right. split; [|exact F1]. exists key.
      split; [now left|]. split; [exact Ex|].
      now rewrite <- (frozen_more_isRegExp _ _ b M). }
    assert (Only : forall b', D' b' ->
                   D b' \/ (b' = b /\ isFrozen h1 b = false)).
    { intros b' [Db|[(k & [Hk|[]] & _) F1]]; [now left|].
      injection Hk as _ <-. now right. }
    destruct (isFrozen h2 b) eqn:Fb; cbn [negb] in R.
    + apply (Fin h2 M); [|exact R]. intros c. rewrite Inv.
      apply or_iff_compat_l. split; intros (b' & Hb & E).
      * exists b'. split; [now left | exact E].
      * destruct (Only b' Hb) as [Db|[-> F1]]; [now exists b'|].
        apply Inv in Fb. destruct Fb as [Fb|(b'' & Db & Eb)]; [congruence|].
        exists b''. split; [exact Db|].
        now apply (entered_trans except h1 b'' b c).
    + destruct (deepFreeze f h2 b except) as [h3|] eqn:Call;
        [|now rewrite visitProperty_None in R].
      destruct (IHf h2 b h3 Call) as [M3 C3].
      assert (M13 : frozen_more h1 h3)
        by (eapply frozen_more_trans; eassumption).
      apply (Fin h3 M13); [|exact R]. intros c. rewrite C3. split.
      * intros [F2|E2].
        -- apply Inv in F2. destruct F2 as [F1|(b' & Db & E)];
             [now left | right].
           exists b'. split; [now left | exact E].
        -- right. exists b. split.
           ++ apply Vb. now apply (isFrozen_more_false h1 h2).
           ++ now apply (entered_more except h1 h2).
      * intros [F1|(b' & Hb & E)].
        -- left. now apply (frozen_more_isFrozen h1 h2).
        -- destruct (Only b' Hb) as [Db|[-> F1]].
           ++ left. apply Inv. right. now exists b'.
           ++ apply (entered_later except h1 h2 D b c M); trivial.
              ** intros x Fx. now apply Inv in Fx.
              ** intros b'' x Db Ex'. apply Inv. right. now exists b''.
Qed.

End FrozenSet.

(** The objects frozen when the call returns are those frozen before
    and those entered, and nothing else changes. *)
Lemma deepFreeze_frozen_set (except : option (list string)) (fuel : nat) :
  forall (h : Heap) (a : nat) (h' : Heap),
  deepFreeze fuel h a except = Some h' ->
  frozen_more h h'
  /\ forall c, isFrozen h' c = true
               <-> isFrozen h c = true \/ entered except h a c.
Proof.
  induction fuel as [|f IH]; intros h a h' R; [discriminate R|].
  rewrite deepFreeze_S in R.
  pose proof (frozen_more_freeze h a) as M1.
  set (h1 := freeze h a) in *.
  destruct (deepFreeze_loop except f h1 IH (ownProperties h1 a) h1 h'
              (fun _ => False) (frozen_more_refl h1)) as [M C];
    [|exact R|].
  { intros c. split; [now left | intros [F|(b & [] & _)]; exact F]. }
  split; [eapply frozen_more_trans; eassumption|].
  assert (F1 : forall c, isFrozen h1 c = true
                         <-> isFrozen h c = true \/ c = a).
  { intros c. subst h1. rewrite isFrozen_freeze, orb_true_iff.
    now rewrite Nat.eqb_eq. }
  intros c. rewrite C. split.
  - intros [F|(b & [ [] | [V Fb] ] & E)].
    + apply F1 in F. destruct F as [F | ->]; [now left | right; constructor].
    + right. apply (entered_trans except h a b c).
      * apply (entered_property except h a a b); [constructor | |].
        -- now apply (visited_property_more except h h1 a b M1).
        -- now apply (isFrozen_more_false h h1).
      * now apply (entered_more except h h1).
  - intros [F|E]; [left; apply F1; now left|].
    induction E as [|x y Ex IHx V Fy]; [left; apply F1; now right|].
    destruct (Nat.eq_dec y a) as [->|Ny]; [left; apply F1; now right|].
    assert (Fy1 : isFrozen h1 y = false).
    { destruct (isFrozen h1 y) eqn:Fy1; [|reflexivity].
      apply F1 in Fy1. destruct Fy1; [congruence | contradiction]. }
    assert (V1 : visited_property except h1 x y)
      by now apply (visited_property_more except h h1 x y M1).
    right. destruct IHx as [Fx|(b & Hb & Eb)].
    + assert (x = a) as ->.
      { apply F1 in Fx. destruct Fx as [Fx|Fx]; [|exact Fx].
        destruct (entered_inv except h a x Ex); [assumption | congruence]. }
      exists y. split; [|constructor]. right. now split.
    + exists b. split; [exact Hb|].
      now apply (entered_property except h1 b x y).
Qed.

Lemma deepFreeze_more_fuel (except : option (list string)) (f : nat) :
  forall (h : Heap) (a : nat) (h' : Heap),
  deepFreeze f h a except = Some h' ->
  deepFreeze (S f) h a except = Some h'.
Proof.
  induction f as [|g IH]; intros h a h' R; [discriminate R|].
  rewrite deepFreeze_S in R |- *.
  revert R. generalize (Some (freeze h a)).
  induction (ownProperties (freeze h a) a) as [|[key value] r IHr];
    intros acc R; [exact R|].
  destruct acc as [h2|]; [|now rewrite visitProperty_None in R].
  cbn [fold_left] in R |- *.
  destruct (visitProperty g except (Some h2) (key, value)) as [h3|] eqn:V;
    [|now rewrite visitProperty_None in R].
  replace (visitProperty (S g) except (Some h2) (key, value))
    with (Some h3); [now apply IHr|].
  unfold visitProperty in V |- *. cbn [fst snd] in V |- *.
  destruct (excepted except key); [now symmetry|].
  destruct value as [|b]; [now symmetry|].
  destruct (isRegExp h2 b); [now symmetry|].
  destruct (isFrozen h2 b); cbn [negb] in *; [now symmetry|].
  symmetry. now apply IH.
Qed.

Lemma deepFreeze_fuel_le (except : option (list string)) (f f' : nat)
    (h : Heap) (a : nat) (h' : Heap) :
  (f <= f')%nat ->
  deepFreeze f h a except = Some h' -> deepFreeze f' h a except = Some h'.
Proof.
  induction 1 as [|g _ IH]; [trivial|].
  intros R. now apply deepFreeze_more_fuel, IH.
Qed.

(** X13.  [deepFreeze] returns, cycles in the object graph included:
    fuel beyond the number of objects that are not frozen is enough,
    and more fuel gives the same heap. *)
Theorem deepFreeze_terminates (except : option (list string))
    (fuel : nat) (h : Heap) (object : nat) :
  (unfrozen h < fuel)%nat ->
  exists h',
    forall fuel', (fuel <= fuel')%nat ->
                  deepFreeze fuel' h object except = Some h'.
Proof.
  intros B. destruct (deepFreeze_returns except fuel h object) as (h' & R & _).
  - pose proof (frozen_more_unfrozen _ _ (frozen_more_freeze h object)). lia.
  - exists h'. intros fuel' L. now apply (deepFreeze_fuel_le except fuel).
Qed.

(** X14.  [deepFreeze] only freezes: the heap keeps its size, every
    object keeps its properties and stays a RegExp or not, an object
    that was frozen stays frozen; and the object it is called on is
    frozen when it returns. *)
Theorem deepFreeze_only_freezes (except : option (list string))
    (fuel : nat) (h h' : Heap) (object : nat) :
  deepFreeze fuel h object except = Some h' ->
  List.length h' = List.length h
  /\ (forall a, ownProperties h' a = ownProperties h a
                /\ isRegExp h' a = isRegExp h a
                /\ (isFrozen h a = true -> isFrozen h' a = true))
  /\ isFrozen h' object = true.
Proof.
  intros R. destruct (deepFreeze_frozen_set except fuel h object h' R)
    as [M C].
  split; [symmetry; exact (Forall2_length M)|]. split.
  - intros a. split; [now apply frozen_more_ownProperties|].
    split; [now apply frozen_more_isRegExp|].
    now apply frozen_more_isFrozen.
  - apply C. right. constructor.
Qed.

(** X15.  The objects that are frozen when [deepFreeze] returns are
    those that were frozen before and those that the call entered: the
    object it is called on and, from an entered object, the values of
    its properties that are not excepted, that are objects and no
    RegExp, and that were not frozen before.  An object that was frozen
    before is not entered: what can only be reached through it stays as
    it was. *)
Theorem deepFreeze_frozen_exactly (except : option (list string))
    (fuel : nat) (h h' : Heap) (object : nat) :
  deepFreeze fuel h object except = Some h' ->
  forall c,
    isFrozen h' c = true
    <-> isFrozen h c = true \/ entered except h object c.
Proof.
  intros R. now apply (deepFreeze_frozen_set except fuel h object h').
Qed.

(** X16.  When no object is frozen before the call, every object that
    can be reached from the object [deepFreeze] is called on, through
    properties that are not excepted and whose values are no RegExp, is
    frozen when it returns. *)
Theorem deepFreeze_is_deep (except : option (list string))
    (fuel : nat) (h h' : Heap) (object : nat) :
  (forall a o, nth_error h a = Some o -> frozen o = false) ->
  deepFreeze fuel h object except = Some h' ->
  forall c, reachable except h object c -> isFrozen h' c = true.
Proof.
  intros Fresh R c Hc.
  destruct (deepFreeze_frozen_set except fuel h object h' R) as [_ C].
  apply C. clear C R.
  induction Hc as [|a b _ IH V]; [right; constructor|].
  destruct (isFrozen h b) eqn:Fb; [now left | right].
  destruct IH as [Fa|Ea].
  - exfalso. destruct V as (key & K & _). unfold ownProperties in K.
    unfold isFrozen in Fa. destruct (nth_error h a) as [o|] eqn:E; [|easy].
    rewrite (Fresh a o E) in Fa. discriminate Fa.
  - now apply (entered_property except h object a b).
Qed.

(** ** The duration in seconds *)

Lemma round_half_even_error (p q : Z) :
  0 < q -> Z.abs (2 * (q * JS.round_half_even p q - p)) <= q.
Proof.
  intros Hq. unfold JS.round_half_even.
  pose proof (Z.div_mod p q ltac:(lia)) as E.
  pose proof (Z.mod_pos_bound p q Hq) as B.
  destruct (Z.ltb_spec (2 * (p mod q)) q); [nia|].
  destruct (Z.ltb_spec q (2 * (p mod q))); [nia|].
  destruct (Z.even (p / q)); nia.
Qed.

(** The quotient by 1000 of an elapsed time below 2^53 has a negative
    binary exponent, at most -9. *)
Lemma nearest_F64_seconds (d : Z) :
  1000 < d < 2 ^ 53 ->
  exists k,
    9 <= k
    /\ JS.nearest_F64 d 1000
       = JS.mkF64 (JS.round_half_even (d * 2 ^ k) 1000) (- k).
Proof.
  intros [Lo Hi]. unfold JS.nearest_F64. cbv zeta.
  change (Z.log2 1000) with 9.
  assert (L9 : 9 <= Z.log2 d) by (apply Z.log2_le_pow2; lia).
  assert (L53 : Z.log2 d < 53) by (apply Z.log2_lt_pow2; lia).
  set (e0 := Z.log2 d - 9).
  assert (B0 : 0 <= e0 <= 43) by (subst e0; lia).
  rewrite (Z.max_l 0 (- e0)), (Z.max_r 0 e0) by lia.
  rewrite Z.pow_0_r, Z.mul_1_r.
  destruct (d <? 1000 * 2 ^ e0).
  - exists (52 - (e0 - 1)). split; [lia|].
    rewrite (Z.max_r 0 (- (e0 - 1 - 52))), (Z.max_l 0 (e0 - 1 - 52)) by lia.
    rewrite Z.pow_0_r, Z.mul_1_r. f_equal; [|lia].
    f_equal. f_equal. f_equal. lia.
  - exists (52 - e0). split; [lia|].
    rewrite (Z.max_r 0 (- (e0 - 52))), (Z.max_l 0 (e0 - 52)) by lia.
    rewrite Z.pow_0_r, Z.mul_1_r. f_equal; [|lia].
    f_equal. f_equal. f_equal. lia.
Qed.

(** X17.  For an elapsed time between 1000 ms and 2^53 ms the duration
    is printed in seconds with one decimal, and the number printed is
    the elapsed time rounded to a tenth of a second: it is off by at
    most 50 ms. *)
Theorem seconds_rounded_to_tenth (now startTime : Z) :
  1000 < now - startTime < 2 ^ 53 ->
  exists n,
    diffText now startTime
    = JS.Number_toString (n / 10) ++ "." ++ JS.Number_toString (n mod 10)
        ++ " sec"
    /\ Z.abs (100 * n - (now - startTime)) <= 50.
Proof.
  intros [Lo Hi]. unfold diffText. cbv zeta.
  rewrite Number_sub_exact by lia.
  set (d := now - startTime) in *. unfold oneSecond.
  replace (d >? 1000) with true by (symmetry; apply Z.gtb_lt; lia).
  rewrite Number_div_pos by lia.
  destruct (nearest_F64_seconds d) as (k & Hk & ->); [lia|].
  set (m := JS.round_half_even (d * 2 ^ k) 1000).
  assert (Hm : 0 <= m).
  { apply round_half_even_nonneg; [|lia].
    apply Z.mul_nonneg_nonneg; [lia | apply Z.pow_nonneg; lia]. }
  pose proof (round_half_even_error (d * 2 ^ k) 1000 ltac:(lia)) as Em.
  fold m in Em.
  unfold JS.toFixed1. cbv zeta. cbn [JS.mant JS.expo].
  replace (m <? 0) with false by (symmetry; apply Z.ltb_ge; lia).
  rewrite (Z.max_l 0 (- k)), (Z.max_r 0 (- - k)) by lia.
  rewrite Z.pow_0_r, Z.mul_1_r, Z.opp_involutive, (Z.abs_eq m) by lia.
  set (K := 2 ^ k) in *.
  assert (HK : 512 <= K).
  { change 512 with (2 ^ 9). subst K. apply Z.pow_le_mono_r; lia. }
  set (n := (20 * m + K) / (2 * K)).
  exists n. split; [now rewrite !append_assoc_s|].
  pose proof (Z.div_mod (20 * m + K) (2 * K) ltac:(lia)) as E.
  pose proof (Z.mod_pos_bound (20 * m + K) (2 * K) ltac:(lia)) as B.
  fold n in E. nia.
Qed.
(** ** Names and bundles *)

Section Into.
Context {UP : UniversalPath}.

Lemma flagged_of_changed (startTime : Z) (dgen : list GeneratedFile)
    (g : GeneratedFile) :
  filter (changed startTime) (sourceFiles g) <> [] ->
  flagged startTime dgen g = true.
Proof.
  intros N. unfold flagged. apply orb_true_iff. left.
  induction (sourceFiles g) as [|sf r IH]; [now elim N|]. cbn in *.
  destruct (changed startTime sf); [reflexivity|]. now apply IH.
Qed.

Lemma flagged_of_unchanged (startTime : Z) (dgen : list GeneratedFile)
    (gs : list GeneratedFile) :
  cachedSources startTime dgen gs <> [] ->
  filter (flagged startTime dgen) gs <> [].
Proof.
  unfold cachedSources. destruct (filter (flagged startTime dgen) gs);
    [now intros [] | discriminate].
Qed.

Lemma changedNames_flagged (startTime : Z) (dgen : list GeneratedFile)
    (gs : list GeneratedFile) :
  changedNames startTime gs <> [] ->
  filter (flagged startTime dgen) gs <> [].
Proof.
  unfold changedNames. induction gs as [|g r IH]; [now intros []|].
  cbn [flat_map filter]. intros N.
  destruct (filter (changed startTime) (sourceFiles g)) as [|sf l] eqn:E.
  - cbn in N. specialize (IH N).
    destruct (flagged startTime dgen g); [discriminate | exact IH].
  - rewrite (flagged_of_changed startTime dgen g); [discriminate|].
    rewrite E. discriminate.
Qed.

(** X21.  A pass that has a compiled name or a cached count above 0 has
    a generated name: the line never says ["compiled ..."] or
    ["... cached"] without saying [" into ..."]. *)
Theorem names_come_with_bundles (startTime : Z)
    (generatedFiles dgen : list GeneratedFile) :
  compiled (collect startTime generatedFiles dgen) <> []
  \/ 0 < cachedCount (collect startTime generatedFiles dgen) ->
  generated (collect startTime generatedFiles dgen) <> []
  /\ exists rest,
       generatedLog (generated (collect startTime generatedFiles dgen))
       = " into " ++ rest.
Proof.
  rewrite collect_closed_form. cbn [generated compiled cachedCount].
  intros H.
  assert (N : filter (flagged startTime dgen) generatedFiles <> []).
  { destruct H as [H|H].
    - apply changedNames_flagged. intros E. apply H. now rewrite E.
    - apply flagged_of_unchanged. intros E. rewrite E in H. cbn in H. lia. }
  destruct (filter (flagged startTime dgen) generatedFiles)
    as [|g [|g' l]]; [now elim N| |]; (split; [discriminate|]);
    eexists; reflexivity.
Qed.

End Into.
(** ** deepAssign *)

Lemma own_set_own (entries : list (string * JSValue)) (k k' : string)
    (v : JSValue) :
  own (set_own entries k v) k'
  = if String.eqb k k' then Some v else own entries k'.
Proof.
  induction entries as [|[k0 v0] rest IH]; cbn; [reflexivity|].
  destruct (String.eqb_spec k0 k) as [->|N]; cbn.
  - now destruct (String.eqb k k').
  - rewrite IH. destruct (String.eqb_spec k0 k') as [->|N'];
      [|reflexivity].
    destruct (String.eqb_spec k k') as [->|_]; [now elim N | reflexivity].
Qed.

Lemma assignKey_Returns (rec : JSValue -> JSValue -> Outcome)
    (merge : string -> JSValue -> bool) (entries : list (string * JSValue))
    (key : string) (value r : JSValue) :
  assignKey rec merge (JSObject entries) key value = Returns r ->
  exists x,
    r = JSObject (set_own entries key x)
    /\ if isObject value && merge key value
       then rec (nestedOf entries key) value = Returns x
       else x = value.
Proof.
  unfold assignKey, nestedOf.
  destruct (String.eqb key "__proto__"); [discriminate|].
  destruct (isObject value && merge key value).
  - destruct (own entries key) as [v|].
    + destruct (rec (if isNullish v then JSObject [] else v) value)
        as [n| |] eqn:R; try discriminate.
      intros E. injection E as <-. now exists n.
    + destruct (JS.includes Object_prototype_names key); [discriminate|].
      destruct (rec (JSObject []) value) as [n| |] eqn:R; try discriminate.
      intros E. injection E as <-. now exists n.
  - intros E. injection E as <-. now exists value.
Qed.

Lemma forEachKey_by_key (rec : JSValue -> JSValue -> Outcome)
    (merge : string -> JSValue -> bool) (entries : list (string * JSValue)) :
  forall (c : list (string * JSValue)) (r : JSValue),
  forEachKey rec merge entries (JSObject c) = Returns r ->
  exists t',
    r = JSObject t'
    /\ (forall k, ~ In k (map fst entries) -> own t' k = own c k)
    /\ (NoDup (map fst entries) ->
        forall k v, In (k, v) entries ->
          if isObject v && merge k v
          then exists n, rec (nestedOf c k) v = Returns n
                         /\ own t' k = Some n
          else own t' k = Some v).
Proof.
  induction entries as [|[k0 v0] rest IH]; intros c r R.
  - cbn in R. injection R as <-. exists c. split; [reflexivity|].
    split; [reflexivity|]. intros _ k v [].
  - cbn [forEachKey] in R.
    destruct (assignKey rec merge (JSObject c) k0 v0) as [c1| |] eqn:A;
      try discriminate R.
    destruct (assignKey_Returns _ _ _ _ _ _ A) as (x & -> & Hx).
    destruct (IH _ _ R) as (t' & -> & Hout & Hin).
    exists t'. split; [reflexivity|]. split.
    + intros k Hk. cbn in Hk. rewrite Hout by tauto.
      rewrite own_set_own.
      destruct (String.eqb_spec k0 k) as [->|_]; [|reflexivity].
      elim Hk. now left.
    + intros ND k v Hkv. cbn in ND. inversion ND as [|? ? N0 ND']. subst.
      destruct Hkv as [E|Hkv].
      * injection E as -> ->.
        rewrite (Hout k N0), own_set_own, String.eqb_refl.
        destruct (isObject v && merge k v); [now exists x | now subst].
      * assert (Nk : k0 <> k).
        { intros ->. apply N0. change k with (fst (k, v)).
          now apply in_map. }
        specialize (Hin ND' k v Hkv).
        unfold nestedOf in Hin. rewrite own_set_own in Hin.
        destruct (String.eqb_spec k0 k) as [->|_]; [now elim Nk|].
        exact Hin.
Qed.

(** X18.  When [deepAssign] returns, on objects as target and source,
    it returns an object that has, for every key that the source has
    not, what the target had; for a key of the source whose value is a
    plain object that the filter lets merge, the result of the call on
    what the target had there (a new object when it had nothing, [null]
    or [undefined]) and on that value; and for every other key of the
    source the value of the source. *)
Theorem deepAssign_by_key (filter : option Filter)
    (target source : list (string * JSValue)) (r : JSValue) :
  deepAssign filter (JSObject target) (JSObject source) = Returns r ->
  exists result,
    r = JSObject result
    /\ (forall k, ~ In k (map fst source) -> own result k = own target k)
    /\ (NoDup (map fst source) ->
        forall k v, In (k, v) source ->
          if isObject v
             && shouldMerge filter (JSObject target) (JSObject source) k v
          then exists n,
                 deepAssign filter (nestedOf target k) v = Returns n
                 /\ own result k = Some n
          else own result k = Some v).
Proof.
  intros R. cbn [deepAssign] in R.
  exact (forEachKey_by_key _ _ source target r R).
Qed.



Lemma set_own_same (entries : list (string * JSValue)) (k : string)
    (v : JSValue) :
  own entries k = Some v -> set_own entries k v = entries.
Proof.
  induction entries as [|[k0 v0] rest IH]; cbn; [discriminate|].
  destruct (String.eqb k0 k).
  - intros E. now injection E as ->.
  - intros E. now rewrite IH.
Qed.

Lemma distinct_keys_entries (entries : list (string * JSValue)) :
  distinct_keys (JSObject entries) ->
  NoDup (map fst entries)
  /\ forall k v, In (k, v) entries -> distinct_keys v.
Proof.
  cbn [distinct_keys]. intros [ND All]. split; [exact ND|]. clear ND.
  induction entries as [|[k0 v0] rest IH]; intros k v []; destruct All.
  - now injection H as _ <-.
  - now apply (IH H1 k v).
Qed.

Lemma forEachKey_fixed (rec : JSValue -> JSValue -> Outcome)
    (merge : string -> JSValue -> bool) (entries c : list (string * JSValue)) :
  (forall k v, In (k, v) entries ->
     assignKey rec merge (JSObject c) k v = Returns (JSObject c)) ->
  forEachKey rec merge entries (JSObject c) = Returns (JSObject c).
Proof.
  induction entries as [|[k v] rest IH]; intros H; [reflexivity|].
  cbn [forEachKey]. rewrite (H k v) by now left.
  apply IH. intros k' v' Hin. apply H. now right.
Qed.

(** An induction over the objects inside an object. *)
Lemma JSValue_nested_ind (P : JSValue -> Prop) :
  (forall v, isObject v = false -> P v) ->
  (forall entries,
     (forall k v, In (k, v) entries -> P v) -> P (JSObject entries)) ->
  forall v, P v.
Proof.
  intros Hatom Hobj. fix IH 1. intros [| |b|z|s|a|entries];
    try (apply Hatom; reflexivity).
  apply Hobj. revert entries. fix F 1. intros [|[k0 v0] rest] k v Hin.
  - destruct Hin.
  - destruct Hin as [E|Hin].
    + injection E as _ <-. apply IH.
    + exact (F rest k v Hin).
Qed.

Lemma forEachKey_keys (rec : JSValue -> JSValue -> Outcome)
    (merge : string -> JSValue -> bool) (entries : list (string * JSValue)) :
  forall (c : list (string * JSValue)) (r : JSValue),
  forEachKey rec merge entries (JSObject c) = Returns r ->
  forall k v, In (k, v) entries -> String.eqb k "__proto__" = false.
Proof.
  induction entries as [|[k0 v0] rest IH]; intros c r R k v Hin;
    [destruct Hin|].
  cbn [forEachKey] in R.
  destruct (assignKey rec merge (JSObject c) k0 v0) as [c1| |] eqn:A;
    try discriminate R.
  destruct Hin as [E|Hin].
  - injection E as -> ->. unfold assignKey in A.
    destruct (String.eqb k "__proto__"); [discriminate A | reflexivity].
  - destruct (assignKey_Returns _ _ _ _ _ _ A) as (x & -> & _).
    exact (IH _ _ R k v Hin).
Qed.

Lemma forEachKey_primitive (rec : JSValue -> JSValue -> Outcome)
    (merge : string -> JSValue -> bool) (entries : list (string * JSValue))
    (t r : JSValue) :
  isObject t = false ->
  forEachKey rec merge entries t = Returns r -> entries = [] /\ r = t.
Proof.
  intros Ht. destruct entries as [|[k v] rest].
  - cbn. intros E. now injection E as <-.
  - cbn [forEachKey]. intros R. exfalso.
    destruct t; try discriminate Ht; unfold assignKey in R;
      repeat match type of R with
             | context [if ?b then _ else _] => destruct b
             end; discriminate R.
Qed.

Lemma deepAssign_not_nullish (filter : option Filter)
    (entries : list (string * JSValue)) (t r : JSValue) :
  deepAssign filter t (JSObject entries) = Returns r ->
  isNullish t = false -> isNullish r = false.
Proof.
  cbn [deepAssign]. intros R Ht.
  destruct (isObject t) eqn:Ot.
  - destruct t; try discriminate Ot.
    destruct (forEachKey_by_key _ _ entries _ r R) as (t' & -> & _).
    reflexivity.
  - destruct (forEachKey_primitive _ _ _ _ _ Ot R) as [_ ->]. exact Ht.
Qed.

Lemma nestedOf_not_nullish (entries : list (string * JSValue))
    (k : string) :
  isNullish (nestedOf entries k) = false.
Proof.
  unfold nestedOf. destruct (own entries k) as [v|]; [|reflexivity].
  destruct (isNullish v) eqn:E; [reflexivity | exact E].
Qed.

(** X20.  Without a filter, assigning the same source again changes
    nothing: if [deepAssign] returns [r] for a target and a source,
    it returns [r] for [r] and that source. *)
Theorem deepAssign_again (source : JSValue) :
  distinct_keys source ->
  forall target r : JSValue,
  deepAssign None target source = Returns r ->
  deepAssign None r source = Returns r.
Proof.
  induction source as [v Hv|entries IH] using JSValue_nested_ind;
    intros WF target r R.
  - destruct v; try discriminate Hv; cbn in R |- *; try discriminate R;
      reflexivity.
  - destruct (distinct_keys_entries entries WF) as [ND WFv].
    cbn [deepAssign shouldMerge] in R |- *.
    destruct (isObject target) eqn:Ot.
    + destruct target as [| | | | | |t]; try discriminate Ot.
      pose proof (forEachKey_keys _ _ entries t r R) as Keys.
      destruct (forEachKey_by_key _ _ entries t r R)
        as (t' & -> & _ & Hin).
      specialize (Hin ND). apply forEachKey_fixed. intros k v Hkv.
      specialize (Hin k v Hkv). unfold assignKey.
      rewrite (Keys k v Hkv), andb_true_r.
      destruct (isObject v) eqn:Ov.
      * destruct Hin as (n & Rn & On). rewrite On.
        destruct v as [| | | | | |es]; try discriminate Ov.
        rewrite (deepAssign_not_nullish None es _ n Rn
                   (nestedOf_not_nullish t k)).
        rewrite (IH k (JSObject es) Hkv (WFv _ _ Hkv) _ n Rn).
        now rewrite (set_own_same t' k n On).
      * now rewrite (set_own_same t' k v Hin).
    + destruct (forEachKey_primitive _ _ _ _ _ Ot R) as [-> ->].
      reflexivity.
Qed.

(** ** The further properties on sample inputs *)

Lemma log_ignores_source_order_witness :
  Forall2 same_bundle [main_css; print_css] [main_css_swapped; print_css]
  /\ @generateCompilationLog posix 2200 1000 images [main_css; print_css]
       noDisposed
     = @generateCompilationLog posix 2200 1000 images
         [main_css_swapped; print_css] noDisposed.
Proof.
  assert (H : Forall2 same_bundle [main_css; print_css]
                [main_css_swapped; print_css]).
  { constructor; [|constructor; [|constructor]].
    - split; [reflexivity|]. split; [reflexivity|]. apply perm_swap.
    - split; [reflexivity|]. split; [reflexivity|]. apply Permutation_refl. }
  split; [exact H|].
  exact (@log_ignores_source_order posix 1000 2200 images _ _ noDisposed H).
Defined.

Lemma log_ignores_input_order_witness :
  Permutation images (List.rev images)
  /\ Permutation [main_css; print_css] [print_css; main_css]
  /\ @generateCompilationLog posix 2200 1000 images [main_css; print_css]
       (DisposedFiles.mk [vendor_js; init_js] ["a.js"; "b.js"])
     = @generateCompilationLog posix 2200 1000 (List.rev images)
         [print_css; main_css]
         (DisposedFiles.mk [init_js; vendor_js] ["b.js"; "a.js"]).
Proof.
  assert (A : Permutation images (List.rev images)) by apply perm_swap.
  assert (G : Permutation [main_css; print_css] [print_css; main_css])
    by apply perm_swap.
  split; [exact A|]. split; [exact G|].
  apply (@log_ignores_input_order posix 1000 2200 images (List.rev images)
           [main_css; print_css] [print_css; main_css]
           (DisposedFiles.mk [vendor_js; init_js] ["a.js"; "b.js"])
           (DisposedFiles.mk [init_js; vendor_js] ["b.js"; "a.js"]) A G);
    apply perm_swap.
Defined.

Lemma flatten_one_level_witness :
  Forall (fun v => forall a, v <> JSArray a) [JSNumber 1; JSString "x"]
  /\ flatten [JSNumber 1; JSString "x"] = [JSNumber 1; JSString "x"].
Proof.
  assert (H : Forall (fun v => forall a, v <> JSArray a)
                [JSNumber 1; JSString "x"])
    by (repeat constructor; discriminate).
  split; [exact H|].
  exact (proj2 (proj2 (flatten_one_level [] [JSNumber 1; JSString "x"])) H).
Defined.

Lemma prettify_unambiguous_witness :
  Forall plain_entry sample_params
  /\ prettify sample_params = "env=production jobs=4 debug=false only="
  /\ map shown sample_params = map shown sample_params.
Proof.
  assert (H : Forall plain_entry sample_params)
    by (repeat constructor).
  split; [exact H|]. split; [reflexivity|].
  exact (prettify_unambiguous sample_params sample_params H H eq_refl).
Defined.

Lemma prettify_app_witness :
  [("env", JSString "production")] <> []
  /\ [("jobs", JSNumber 4)] <> []
  /\ prettify [("env", JSString "production"); ("jobs", JSNumber 4)]
     = "env=production jobs=4".
Proof.
  assert (N1 : [("env", JSString "production")] <> []) by discriminate.
  assert (N2 : [("jobs", JSNumber 4)] <> []) by discriminate.
  split; [exact N1|]. split; [exact N2|].
  exact (proj1 (prettify_app _ _ N1 N2)).
Defined.

Lemma progress_lines_witness :
  run (getCompilationProgress 0 (Some 1500))
    [TimerFires 2500; TimerFires 6500; TimerFires 10700]
  = Some (mkProgress 3 (Some 14700)
            ["compiling"; "compiling."; "compiling.."])
  /\ logged (mkProgress 3 (Some 14700)
               ["compiling"; "compiling."; "compiling.."])
     = map progressLine (seq 0 3).
Proof.
  assert (R : run (getCompilationProgress 0 (Some 1500))
                [TimerFires 2500; TimerFires 6500; TimerFires 10700]
              = Some (mkProgress 3 (Some 14700)
                        ["compiling"; "compiling."; "compiling.."]))
    by reflexivity.
  split; [exact R|].
  exact (proj1 (progress_lines 0 (Some 1500) _ _ R)).
Defined.

Lemma progress_line_not_early_witness :
  run (getCompilationProgress 0 (Some 1500)) [TimerFires 2500]
  = Some (mkProgress 1 (Some 6500) ["compiling"])
  /\ react (mkProgress 1 (Some 6500) ["compiling"]) (TimerFires 7000)
     = Some (mkProgress 2 (Some 11000) ["compiling"; "compiling."])
  /\ 0 + initRunIn (Some 1500) + 4000 * 1 <= 7000.
Proof.
  assert (R : run (getCompilationProgress 0 (Some 1500)) [TimerFires 2500]
              = Some (mkProgress 1 (Some 6500) ["compiling"]))
    by reflexivity.
  assert (F : react (mkProgress 1 (Some 6500) ["compiling"])
                (TimerFires 7000)
              = Some (mkProgress 2 (Some 11000) ["compiling"; "compiling."]))
    by reflexivity.
  split; [exact R|]. split; [exact F|].
  exact (proj1 (progress_line_not_early 0 (Some 1500) _ _ _ 7000 R F)).
Defined.

Lemma progress_cancelled_witness :
  run (cancel (mkProgress 1 (Some 6500) ["compiling"]))
    [CancelCalled; CancelCalled]
  = Some (mkProgress 1 None ["compiling"])
  /\ logged (mkProgress 1 None ["compiling"]) = ["compiling"]
  /\ react (getCompilationProgress 0 None) (TimerFiresAndCancelCalled 4000)
     = Some (mkProgress 1 (Some 8000) ["compiling"])
  /\ react (mkProgress 1 (Some 8000) ["compiling"]) (TimerFires 8000)
     = Some (mkProgress 2 (Some 12000) ["compiling"; "compiling."]).
Proof.
  assert (R : run (cancel (mkProgress 1 (Some 6500) ["compiling"]))
                [CancelCalled; CancelCalled]
              = Some (mkProgress 1 None ["compiling"])) by reflexivity.
  assert (F : react (getCompilationProgress 0 None)
                (TimerFiresAndCancelCalled 4000)
              = Some (mkProgress 1 (Some 8000) ["compiling"]))
    by reflexivity.
  split; [exact R|]. split; [|split; [exact F|]].
  - exact (proj1 (proj1 (progress_cancelled _ _ _ 0) R)).
  - exact (proj2 (proj2 (proj2 (proj2
             (progress_cancelled (getCompilationProgress 0 None)
                (getCompilationProgress 0 None) [] 4000)) _ F))).
Defined.

Lemma deepFreeze_terminates_witness :
  (unfrozen sample_heap < 6)%nat
  /\ exists h', forall fuel', (6 <= fuel')%nat ->
       deepFreeze fuel' sample_heap 0 (Some ["skip"]) = Some h'.
Proof.
  assert (B : (unfrozen sample_heap < 6)%nat) by (cbn; lia).
  split; [exact B|].
  exact (deepFreeze_terminates (Some ["skip"]) 6 sample_heap 0 B).
Defined.

Lemma deepFreeze_only_freezes_witness :
  deepFreeze 6 sample_heap 0 (Some ["skip"])
  = Some (freeze (freeze sample_heap 0) 1)
  /\ isFrozen (freeze (freeze sample_heap 0) 1) 0 = true.
Proof.
  assert (R : deepFreeze 6 sample_heap 0 (Some ["skip"])
              = Some (freeze (freeze sample_heap 0) 1)) by reflexivity.
  split; [exact R|].
  exact (proj2 (proj2 (deepFreeze_only_freezes _ _ _ _ _ R))).
Defined.

Lemma deepFreeze_frozen_exactly_witness :
  deepFreeze 6 sample_heap 0 (Some ["skip"])
  = Some (freeze (freeze sample_heap 0) 1)
  /\ (isFrozen (freeze (freeze sample_heap 0) 1) 5 = true
      <-> isFrozen sample_heap 5 = true
          \/ entered (Some ["skip"]) sample_heap 0 5).
Proof.
  assert (R : deepFreeze 6 sample_heap 0 (Some ["skip"])
              = Some (freeze (freeze sample_heap 0) 1)) by reflexivity.
  split; [exact R|].
  exact (deepFreeze_frozen_exactly _ _ _ _ _ R 5).
Defined.

Lemma deepFreeze_is_deep_witness :
  deepFreeze 7 fresh_heap 0 None
  = Some (freeze (freeze (freeze (freeze (freeze fresh_heap 0) 1) 4) 5) 3)
  /\ reachable None fresh_heap 0 5
  /\ isFrozen
       (freeze (freeze (freeze (freeze (freeze fresh_heap 0) 1) 4) 5) 3) 5
     = true.
Proof.
  assert (Fresh : forall a o, nth_error fresh_heap a = Some o ->
                              frozen o = false).
  { intros a o. do 6 (destruct a as [|a]; [intros E; now injection E as <-|]).
    destruct a; discriminate. }
  assert (R : deepFreeze 7 fresh_heap 0 None
              = Some (freeze (freeze (freeze (freeze (freeze fresh_heap 0)
                                                1) 4) 5) 3))
    by reflexivity.
  assert (P : reachable None fresh_heap 0 5).
  { apply (reachable_property None fresh_heap 0 4 5).
    - apply (reachable_property None fresh_heap 0 1 4).
      + apply (reachable_property None fresh_heap 0 0 1); [constructor|].
        exists "child". split; [now left | now split].
      + exists "inner". split; [right; now left | now split].
    - exists "deep". split; [now left | now split]. }
  split; [exact R|]. split; [exact P|].
  exact (deepFreeze_is_deep None 7 fresh_heap _ 0 Fresh R 5 P).
Defined.

Lemma formatted_message_witness :
  has_line_terminator (trim "  Unexpected token  ") = false
  /\ error_message
       (getFormattedError (ThrownString "  Unexpected token  ")
          None "app/a.js")
     = "Processing of app/a.js failed. Unexpected token"
  /\ error_message
       (getFormattedError (ThrownString "  Unexpected token  ")
          (Some "") "app/a.js")
     = "Processing of app/a.js failed. Unexpected token"
  /\ error_message
       (getFormattedError (ThrownString "  Unexpected token  ")
          (Some "Compiling") "app/a.js")
     = "Compiling of app/a.js failed. Unexpected token".
Proof.
  split; [reflexivity|]. split; [|split].
  - exact (proj1 (proj2 (formatted_message
                    (ThrownString "  Unexpected token  ") None "app/a.js"))
             eq_refl).
  - exact (proj1 (proj2 (formatted_message
                    (ThrownString "  Unexpected token  ") (Some "")
                    "app/a.js")) eq_refl).
  - exact (proj1 (proj2 (formatted_message
                    (ThrownString "  Unexpected token  ") (Some "Compiling")
                    "app/a.js")) eq_refl).
Defined.

Lemma seconds_rounded_to_tenth_witness :
  1000 < 3500 - 1000 < 2 ^ 53
  /\ exists n,
       diffText 3500 1000
       = JS.Number_toString (n / 10) ++ "."
           ++ JS.Number_toString (n mod 10) ++ " sec"
       /\ Z.abs (100 * n - (3500 - 1000)) <= 50.
Proof.
  assert (H : 1000 < 3500 - 1000 < 2 ^ 53) by (split; now vm_compute).
  split; [exact H|].
  exact (seconds_rounded_to_tenth 3500 1000 H).
Defined.

Lemma names_come_with_bundles_witness :
  compiled (@collect posix 1000 [ie7_css] []) <> []
  /\ generated (@collect posix 1000 [ie7_css] []) <> [].
Proof.
  assert (H : compiled (@collect posix 1000 [ie7_css] []) <> [])
    by discriminate.
  split; [exact H|].
  exact (proj1 (@names_come_with_bundles posix 1000 [ie7_css] []
                  (or_introl H))).
Defined.

Lemma deepAssign_by_key_witness :
  deepAssign None (JSObject sample_target) (JSObject sample_source)
  = Returns (JSObject sample_merged)
  /\ exists result,
       JSObject sample_merged = JSObject result
       /\ own result "jobs" = own sample_target "jobs".
Proof.
  assert (R : deepAssign None (JSObject sample_target)
                (JSObject sample_source)
              = Returns (JSObject sample_merged)) by reflexivity.
  split; [exact R|].
  destruct (deepAssign_by_key None sample_target sample_source _ R)
    as (result & E & Hout & _).
  exists result. split; [exact E|]. apply Hout.
  intros [H|[H|[]]]; discriminate H.
Defined.


Lemma deepAssign_again_witness :
  distinct_keys (JSObject sample_source)
  /\ deepAssign None (JSObject sample_target) (JSObject sample_source)
     = Returns (JSObject sample_merged)
  /\ deepAssign None (JSObject sample_merged) (JSObject sample_source)
     = Returns (JSObject sample_merged).
Proof.
  assert (W : distinct_keys (JSObject sample_source)).
  { cbn. split; [|repeat split; repeat constructor; cbn; tauto].
    repeat constructor; cbn; intuition discriminate. }
  assert (R : deepAssign None (JSObject sample_target)
                (JSObject sample_source)
              = Returns (JSObject sample_merged)) by reflexivity.
  split; [exact W|]. split; [exact R|].
  exact (deepAssign_again _ W _ _ R).
Defined.
